(** * A shallow embedding of [blockchain.py]

    The file models the two classes of the program, [Block] and
    [Blockchain], over an explicit object store, and proves properties of
    [insert_block], [validate], [fork] and [get_root].

    Python objects are mutable and are compared by identity unless their
    class says otherwise, so blocks, lists, chains and the dictionaries
    passed as payloads live in a heap and are referred to by address.  The library functions the program calls
    ([hashlib.sha256], [json.dumps], [str], [str.encode], [copy.deepcopy],
    list slicing) are modelled next to the code that uses them. *)

From Stdlib Require Import ZArith List Strings.String Strings.Ascii Strings.Byte Lia Bool DecimalString.
From stdpp Require Import base list sorting.

Import ListNotations.
Local Open Scope string_scope.
Local Open Scope list_scope.

(** ** [hashlib.sha256]: SHA-256 (FIPS 180-4) on 32-bit words kept in [Z] *)

Module SHA256.
Local Open Scope Z_scope.

Definition w32 (x : Z) : Z := x mod 2 ^ 32.
Definition add32 (x y : Z) : Z := w32 (x + y).
Definition rotr (n x : Z) : Z :=
  Z.lor (Z.shiftr x n) (w32 (Z.shiftl x (32 - n))).
Definition not32 (x : Z) : Z := Z.lxor x 0xffffffff.

Definition Ch (x y z : Z) : Z := Z.lxor (Z.land x y) (Z.land (not32 x) z).
Definition Maj (x y z : Z) : Z :=
  Z.lxor (Z.lxor (Z.land x y) (Z.land x z)) (Z.land y z).
Definition bsig0 (x : Z) : Z := Z.lxor (Z.lxor (rotr 2 x) (rotr 13 x)) (rotr 22 x).
Definition bsig1 (x : Z) : Z := Z.lxor (Z.lxor (rotr 6 x) (rotr 11 x)) (rotr 25 x).
Definition ssig0 (x : Z) : Z := Z.lxor (Z.lxor (rotr 7 x) (rotr 18 x)) (Z.shiftr x 3).
Definition ssig1 (x : Z) : Z := Z.lxor (Z.lxor (rotr 17 x) (rotr 19 x)) (Z.shiftr x 10).

(** The constants are what the standard says they are: the first 32 bits
    of the fractional parts of the cube roots (for [K]) and of the square
    roots (for [H0]) of the first primes. *)
Definition is_prime (n : Z) : bool :=
  (1 <? n) && forallb (fun d => negb (n mod d =? 0))
                (map Z.of_nat (seq 2 (Z.to_nat (Z.sqrt n) - 1))).

Definition first_primes (count : nat) : list Z :=
  firstn count (List.filter is_prime (map Z.of_nat (seq 2 400))).

(** The largest [y] below [2 ^ bits] with [y ^ r <= x]. *)
Fixpoint iroot (r x : Z) (bits : nat) (acc : Z) : Z :=
  match bits with
  | O => acc
  | S b =>
      let y := acc + 2 ^ Z.of_nat b in
      iroot r x b (if y ^ r <=? x then y else acc)
  end.

Definition frac_root (r : Z) (p : Z) : Z :=
  (iroot r (p * 2 ^ (32 * r)) 40 0) mod 2 ^ 32.

Definition K : list Z := Eval vm_compute in map (frac_root 3) (first_primes 64).

Definition H0 : list Z := Eval vm_compute in map (frac_root 2) (first_primes 8).

(** Big-endian bytes of [x], [n] of them. *)
Fixpoint be_bytes (n : nat) (x : Z) : list Z :=
  match n with
  | O => []
  | S n' => (Z.shiftr x (8 * Z.of_nat n')) mod 256 :: be_bytes n' x
  end.

(** The message, a [1] bit, zeros up to 56 modulo 64, the bit length. *)
Definition pad (msg : list Z) : list Z :=
  let len := Z.of_nat (length msg) in
  msg ++ [0x80] ++ repeat 0 (Z.to_nat ((55 - len) mod 64)) ++ be_bytes 8 (8 * len).

Fixpoint be_words (fuel : nat) (bs : list Z) : list Z :=
  match fuel, bs with
  | S f, b0 :: b1 :: b2 :: b3 :: rest =>
      (b0 * 2 ^ 24 + b1 * 2 ^ 16 + b2 * 2 ^ 8 + b3) :: be_words f rest
  | _, _ => []
  end.

Fixpoint chunks (fuel : nat) (bs : list Z) : list (list Z) :=
  match fuel with
  | O => []
  | S f => firstn 64 bs :: chunks f (skipn 64 bs)
  end.

(** The message schedule: [w] holds the last sixteen words, oldest first. *)
Fixpoint extend (n : nat) (w : list Z) : list Z :=
  match n with
  | O => []
  | S n' =>
      let x := w32 (ssig1 (nth 14 w 0) + nth 9 w 0 + ssig0 (nth 1 w 0) + nth 0 w 0) in
      x :: extend n' (tl w ++ [x])
  end.

Definition schedule (m : list Z) : list Z := m ++ extend 48 m.

Record regs := Regs { ra : Z; rb : Z; rc : Z; rd : Z; re : Z; rf : Z; rg : Z; rh : Z }.

Definition round (s : regs) (kw : Z * Z) : regs :=
  let t1 := w32 (rh s + bsig1 (re s) + Ch (re s) (rf s) (rg s) + fst kw + snd kw) in
  let t2 := w32 (bsig0 (ra s) + Maj (ra s) (rb s) (rc s)) in
  Regs (add32 t1 t2) (ra s) (rb s) (rc s) (add32 (rd s) t1) (re s) (rf s) (rg s).

Definition regs_of (h : list Z) : regs :=
  Regs (nth 0 h 0) (nth 1 h 0) (nth 2 h 0) (nth 3 h 0)
       (nth 4 h 0) (nth 5 h 0) (nth 6 h 0) (nth 7 h 0).

Definition compress (h : list Z) (chunk : list Z) : list Z :=
  let s0 := regs_of h in
  let s := fold_left round (combine K (schedule (be_words 16 chunk))) s0 in
  [add32 (ra s0) (ra s); add32 (rb s0) (rb s); add32 (rc s0) (rc s);
   add32 (rd s0) (rd s); add32 (re s0) (re s); add32 (rf s0) (rf s);
   add32 (rg s0) (rg s); add32 (rh s0) (rh s)].

Definition digest_words (msg : list Z) : list Z :=
  let p := pad msg in
  fold_left compress (chunks (length p / 64) p) H0.

Definition hex_digit (d : Z) : ascii :=
  match String.get (Z.to_nat d) "0123456789abcdef" with
  | Some c => c
  | None => "0"%char
  end.

Fixpoint hex_word (n : nat) (x : Z) : string :=
  match n with
  | O => EmptyString
  | S n' => String (hex_digit ((Z.shiftr x (4 * Z.of_nat n')) mod 16)) (hex_word n' x)
  end.

Definition of_bytes (bs : list byte) : list Z :=
  map (fun b => Z.of_N (Byte.to_N b)) bs.

(** [hashlib.sha256(bs).hexdigest()] *)
Definition hexdigest (bs : list byte) : string :=
  String.concat "" (map (hex_word 8) (digest_words (of_bytes bs))).
End SHA256.

(** ** Python strings, [str.encode("utf-8")], [str(int)]

    A Python [str] is modelled by a [string] whose characters are the code
    points below 256.  UTF-8 gives one byte to a code point below 128 and
    two bytes to the others in that range. *)

Definition byte_of_Z (z : Z) : byte :=
  match Byte.of_N (Z.to_N (z mod 256)) with
  | Some b => b
  | None => x00
  end.

Definition code_point (c : ascii) : Z := Z.of_N (N_of_ascii c).

Definition encode_char (c : ascii) : list byte :=
  let n := code_point c in
  if (n <? 128)%Z then [byte_of_Z n]
  else [byte_of_Z (Z.lor 0xC0 (Z.shiftr n 6)); byte_of_Z (Z.lor 0x80 (Z.land n 0x3F))].

Fixpoint encode_utf8 (s : string) : list byte :=
  match s with
  | EmptyString => []
  | String c s' => encode_char c ++ encode_utf8 s'
  end.

(** [str(n)] for a Python [int]: decimal digits, with a leading minus sign. *)
Definition str_of_int (n : Z) : string := NilZero.string_of_int (Z.to_int n).


(** Python compares two [str] values by code point, from the left. *)
Definition str_lt (a b : string) : bool := String.ltb a b.
Definition str_ge (a b : string) : bool := negb (str_lt a b).

(** ** [json.dumps] with its default arguments

    The payload of a block is what [json.dumps] accepts: [None], booleans,
    integers, strings, lists, and dictionaries with string keys
    (floating-point numbers are left out).  A dictionary keeps its
    insertion order, so it is an association list.  The defaults are
    [ensure_ascii=True] and the separators [", "] and [": "]. *)

#[local] Set Warnings "-register-all".

Inductive json : Type :=
| JNull
| JBool (b : bool)
| JInt (n : Z)
| JStr (s : string)
| JList (items : list json)
| JDict (fields : list (string * json)).

Definition dquote : ascii := ascii_of_nat 34.
Definition backslash : ascii := ascii_of_nat 92.

Definition hex4 (n : Z) : string := SHA256.hex_word 4 n.

(** One character of a string literal, as [json.encoder] escapes it. *)
Definition json_escape_char (c : ascii) : string :=
  let n := code_point c in
  if (n =? 34)%Z then String backslash (String dquote EmptyString)
  else if (n =? 92)%Z then String backslash (String backslash EmptyString)
  else if (n =? 8)%Z then String backslash "b"
  else if (n =? 12)%Z then String backslash "f"
  else if (n =? 10)%Z then String backslash "n"
  else if (n =? 13)%Z then String backslash "r"
  else if (n =? 9)%Z then String backslash "t"
  else if ((n <? 32) || (126 <? n))%Z then String backslash ("u" ++ hex4 n)%string
  else String c EmptyString.

Fixpoint json_escape (s : string) : string :=
  match s with
  | EmptyString => EmptyString
  | String c s' => (json_escape_char c ++ json_escape s')%string
  end.

Definition json_str (s : string) : string :=
  String dquote (json_escape s ++ String dquote EmptyString)%string.

Fixpoint json_dumps (j : json) : string :=
  match j with
  | JNull => "null"
  | JBool true => "true"
  | JBool false => "false"
  | JInt n => str_of_int n
  | JStr s => json_str s
  | JList items => ("[" ++ String.concat ", " (map json_dumps items) ++ "]")%string
  | JDict fields =>
      ("{" ++ String.concat ", "
                (map (fun kv => match kv with
                                | (k, v) => json_str k ++ ": " ++ json_dumps v
                                end) fields)
           ++ "}")%string
  end.

(** ** class [Block]

    The five attributes of a block.  In a [Block] object [data] is a
    reference: the constructor does [self.data = data] and keeps the
    dictionary the caller passed, not a copy of it.  A [BlockView] is a
    block read together with what its dictionary holds at that time. *)

Record Block_ (D : Type) : Type := mkBlock {
  index : Z;
  timestamp : string;
  data : D;
  previous_hash : string;
  hash : string
}.
Arguments mkBlock {D} _ _ _ _ _.
Arguments index {D} _.
Arguments timestamp {D} _.
Arguments data {D} _.
Arguments previous_hash {D} _.
Arguments hash {D} _.

Abbreviation Block := (Block_ nat).
Abbreviation BlockView := (Block_ json).

(** The block [b] with [d] for its [data]. *)
Definition with_data {D E} (b : Block_ D) (d : E) : Block_ E :=
  mkBlock (index b) (timestamp b) d (previous_hash b) (hash b).

(** [Block.generate_hash] on a block read with its dictionary: the four
    [update] calls feed one hash object, so the digest is that of the four
    encodings laid end to end. *)
Definition generate_hash (self : BlockView) : string :=
  let block_hash : list byte := [] in
  let block_hash := block_hash ++ encode_utf8 (str_of_int (index self)) in
  let block_hash := block_hash ++ encode_utf8 (timestamp self) in
  let block_hash := block_hash ++ encode_utf8 (json_dumps (data self)) in
  let block_hash := block_hash ++ encode_utf8 (previous_hash self) in
  SHA256.hexdigest block_hash.

(** What [Block.__init__] makes, read with its dictionary, when the
    dictionary holds [payload] at the time of the call: the four attributes
    are set, then [hash] is computed from the object that has them. *)
Definition Block_view_init (index : Z) (timestamp : string) (payload : json)
    (previous_hash : string) : BlockView :=
  let self := mkBlock index timestamp payload previous_hash EmptyString in
  mkBlock index timestamp payload previous_hash (generate_hash self).

(** ** The object store

    An address is a position in the heap; allocation adds an object at the
    end, so a new address is one no object had before.  A [Blockchain]
    object has one attribute, [blocks], which refers to a list object; a
    list object holds the addresses of its items.  A dictionary passed as
    payload is an object too, and a block refers to it: what the caller
    does to the dictionary later is seen through the block.  What the
    dictionary holds, nested values included, is kept as one [json]
    value. *)

Abbreviation loc := nat.

Inductive obj : Type :=
| OBlock (b : Block)
| OList (items : list loc)
| OChain (blocks : loc)
| ODict (payload : json).

Abbreviation heap := (list obj).

Inductive exn : Type :=
| IndexError       (* a list index out of range *)
| AttributeError   (* an object of another class than the code expects *)
| TypeError.       (* [json.dumps] on what is not a dictionary *)

Inductive outcome (A : Type) : Type :=
| Return (a : A)
| Raise (e : exn).
Arguments Return {A} a.
Arguments Raise {A} e.

(** A computation reads and changes the heap and returns or raises; what
    it did to the heap before raising stays done. *)
Definition M (A : Type) : Type := heap -> outcome A * heap.

Definition ret {A} (a : A) : M A := fun h => (Return a, h).
Definition raise {A} (e : exn) : M A := fun h => (Raise e, h).
Definition bind {A B} (m : M A) (k : A -> M B) : M B :=
  fun h => match m h with
           | (Return a, h') => k a h'
           | (Raise e, h') => (Raise e, h')
           end.

Notation "x <- m ;; k" := (bind m (fun x => k))
  (at level 100, m at next level, right associativity).
Notation "m ;;; k" := (bind m (fun _ => k))
  (at level 100, right associativity).

Definition alloc (o : obj) : M loc := fun h => (Return (length h), h ++ [o]).

Definition read_block (l : loc) : M Block :=
  fun h => match h !! l with
           | Some (OBlock b) => (Return b, h)
           | _ => (Raise AttributeError, h)
           end.

(** What the dictionary at [d] holds, as [json.dumps] walks it. *)
Definition read_dict (d : loc) : M json :=
  fun h => match h !! d with
           | Some (ODict j) => (Return j, h)
           | _ => (Raise TypeError, h)
           end.

(** A dictionary display [{...}] in the caller's code: a new object. *)
Definition new_dict (j : json) : M loc := alloc (ODict j).

(** The caller changes the dictionary at [d] where it is (item
    assignment, [update], a change of a nested value): it then holds [j]. *)
Definition dict_set (d : loc) (j : json) : M unit :=
  fun h => match h !! d with
           | Some (ODict _) => (Return tt, <[d := ODict j]> h)
           | _ => (Raise TypeError, h)
           end.

(** A block read with its dictionary: every attribute, and
    [json.dumps(self.data)] for [generate_hash]. *)
Definition read_view (l : loc) : M BlockView :=
  b <- read_block l ;; j <- read_dict (data b) ;; ret (with_data b j).

(** [Block.generate_hash] on a [Block] object. *)
Definition Block_generate_hash (self : Block) : M string :=
  j <- read_dict (data self) ;; ret (generate_hash (with_data self j)).

(** [Block.__init__]: the four attributes are set, [data] to the
    dictionary passed, then [hash] is computed. *)
Definition Block_init (index : Z) (timestamp : string) (data : loc)
    (previous_hash : string) : M Block :=
  let self := mkBlock index timestamp data previous_hash EmptyString in
  hash <- Block_generate_hash self ;;
  ret (mkBlock index timestamp data previous_hash hash).

Definition read_list (l : loc) : M (list loc) :=
  fun h => match h !! l with
           | Some (OList items) => (Return items, h)
           | _ => (Raise AttributeError, h)
           end.

(** [c.blocks] *)
Definition get_blocks (c : loc) : M loc :=
  fun h => match h !! c with
           | Some (OChain l) => (Return l, h)
           | _ => (Raise AttributeError, h)
           end.

(** [c.blocks = l] *)
Definition set_blocks (c l : loc) : M unit :=
  fun h => match h !! c with
           | Some (OChain _) => (Return tt, <[c := OChain l]> h)
           | _ => (Raise AttributeError, h)
           end.

(** [l.append(x)]: the list object is changed where it is. *)
Definition list_append (l x : loc) : M unit :=
  fun h => match h !! l with
           | Some (OList items) => (Return tt, <[l := OList (items ++ [x])]> h)
           | _ => (Raise AttributeError, h)
           end.

(** [len(l)] *)
Definition list_len (l : loc) : M nat :=
  items <- read_list l ;; ret (length items).

(** [l[i]]: a negative index counts from the end. *)
Definition py_index {A} (items : list A) (i : Z) : option A :=
  let n := Z.of_nat (length items) in
  let j := if (i <? 0)%Z then (i + n)%Z else i in
  if (j <? 0)%Z then None else items !! Z.to_nat j.

Definition list_getitem (l : loc) (i : Z) : M loc :=
  items <- read_list l ;;
  match py_index items i with
  | Some x => ret x
  | None => raise IndexError
  end.

(** [items[:upto]]: a negative bound counts from the end, and the bound is
    clipped to the list. *)
Definition py_slice_upto {A} (items : list A) (upto : Z) : list A :=
  let n := Z.of_nat (length items) in
  let stop := if (upto <? 0)%Z then Z.max 0 (upto + n) else Z.min upto n in
  firstn (Z.to_nat stop) items.

(** [l[:upto]] is a new list object. *)
Definition list_slice_upto (l : loc) (upto : Z) : M loc :=
  items <- read_list l ;; alloc (OList (py_slice_upto items upto)).

(** ** class [Blockchain]

    [current_unix_timestamp] reads the clock of the machine.  The string it
    returns is an input of the model: the two methods that read the clock,
    [__init__] and [insert_block], read it once and take that reading as
    their argument [now]. *)

Definition genesis_data : json :=
  JDict [("author", JStr "Stefan Delic"); ("message", JStr "Hello world.")].

(** [Blockchain._generate_genesis_block]: the payload is a dictionary
    display, a new object. *)
Definition _generate_genesis_block (now : string) : M loc :=
  d <- new_dict genesis_data ;;
  b <- Block_init 0 now d "Liberate my madness..." ;;
  alloc (OBlock b).

(** [Blockchain.__init__]: [self.blocks = [self._generate_genesis_block()]] *)
Definition Blockchain_init (now : string) : M loc :=
  g <- _generate_genesis_block now ;;
  l <- alloc (OList [g]) ;;
  alloc (OChain l).

(** [Blockchain.length] *)
Definition length_ (self : loc) : M nat :=
  l <- get_blocks self ;; list_len l.

(** [Blockchain.latest_block]: [self.blocks[-1]] *)
Definition latest_block (self : loc) : M loc :=
  l <- get_blocks self ;; list_getitem l (-1).

(** [Blockchain.insert_block].  Python evaluates [self.blocks.append] down
    to the list object, then the arguments of [Block(...)] from the left,
    then calls [append]: an exception raised by [self.blocks[-1]] leaves
    the list as it was.  [self.blocks[-1]] is written [latest_block self],
    the property that computes exactly it. *)
Definition insert_block (self : loc) (data : loc) (now : string) : M loc :=
  l <- get_blocks self ;;
  n <- length_ self ;;
  prev <- latest_block self ;;
  p <- read_block prev ;;
  new <- Block_init (Z.of_nat n) now data (hash p) ;;
  b <- alloc (OBlock new) ;;
  list_append l b ;;;
  latest_block self.

(** [self.insert_block({...})]: the payload is a dictionary display. *)
Definition insert_block_display (self : loc) (j : json) (now : string)
    : M loc :=
  d <- new_dict j ;; insert_block self d now.

(** [range(a, b)] *)
Definition py_range (a b : nat) : list nat := seq a (b - a).

Definition fmt_error (what : string) (i : nat) : string :=
  (what ++ " at block " ++ str_of_int (Z.of_nat i) ++ ".")%string.

(** The body of the loop of [validate], on the values of the blocks of
    the chain; [None] stands for the [IndexError] of an index out of
    range.  Each of the four [if] statements is run, one after the other,
    on the pair [(flag, validation_errors)]. *)
Definition validate_body (blocks : list BlockView) (i : nat)
    (st : bool * list string) : option (bool * list string) :=
  match blocks !! i, blocks !! (i - 1) with
  | Some cur, Some prev =>
      let st := if negb (index cur =? Z.of_nat i)%Z
                then (false, snd st ++ [fmt_error "Wrong block index" i])
                else st in
      let st := if negb (String.eqb (hash prev) (previous_hash cur))
                then (false, snd st ++ [fmt_error "Wrong previous hash" i])
                else st in
      let st := if negb (String.eqb (hash cur) (generate_hash cur))
                then (false, snd st ++ [fmt_error "Wrong hash" i])
                else st in
      let st := if str_ge (timestamp prev) (timestamp cur)
                then (false, snd st ++ [fmt_error "Backdating" i])
                else st in
      Some st
  | _, _ => None
  end.

Fixpoint validate_loop (blocks : list BlockView) (range : list nat)
    (st : bool * list string) : option (bool * list string) :=
  match range with
  | [] => Some st
  | i :: range' =>
      match validate_body blocks i st with
      | Some st' => validate_loop blocks range' st'
      | None => None
      end
  end.

Definition validate_blocks (blocks : list BlockView) : option (bool * list string) :=
  validate_loop blocks (py_range 1 (length blocks)) (true, []).

Fixpoint read_blocks (ls : list loc) : M (list BlockView) :=
  match ls with
  | [] => ret []
  | x :: ls' => b <- read_view x ;; bs <- read_blocks ls' ;; ret (b :: bs)
  end.

(** [Blockchain.validate]: the method changes nothing, so the blocks are
    read once, each with what its dictionary holds, and the loop runs on
    what was read. *)
Definition validate (self : loc) : M (bool * list string) :=
  l <- get_blocks self ;;
  items <- read_list l ;;
  blocks <- read_blocks items ;;
  match validate_blocks blocks with
  | Some r => ret r
  | None => raise IndexError
  end.

(** [Blockchain.is_valid] *)
Definition is_valid (self : loc) : M bool :=
  r <- validate self ;; ret (fst r).

(** [copy.deepcopy].  [memo] pairs each object copied so far with its
    copy, as in the library: an object met again is not copied again.  The
    copy of a block has the attributes of the block, the stored [hash]
    among them, and a copy of its dictionary for [data]; nothing is hashed
    again. *)
Fixpoint memo_get (memo : list (loc * loc)) (x : loc) : option loc :=
  match memo with
  | [] => None
  | (x', y) :: memo' => if Nat.eqb x' x then Some y else memo_get memo' x
  end.

Definition deepcopy_dict (memo : list (loc * loc)) (d : loc)
    : M (list (loc * loc) * loc) :=
  match memo_get memo d with
  | Some y => ret (memo, y)
  | None =>
      j <- read_dict d ;;
      y <- alloc (ODict j) ;;
      ret ((d, y) :: memo, y)
  end.

Definition deepcopy_block (memo : list (loc * loc)) (x : loc)
    : M (list (loc * loc) * loc) :=
  match memo_get memo x with
  | Some y => ret (memo, y)
  | None =>
      b <- read_block x ;;
      r <- deepcopy_dict memo (data b) ;;
      y <- alloc (OBlock (with_data b (snd r))) ;;
      ret ((x, y) :: fst r, y)
  end.

Fixpoint deepcopy_items (memo : list (loc * loc)) (ls : list loc)
    : M (list (loc * loc) * list loc) :=
  match ls with
  | [] => ret (memo, [])
  | x :: ls' =>
      r <- deepcopy_block memo x ;;
      r' <- deepcopy_items (fst r) ls' ;;
      ret (fst r', snd r :: snd r')
  end.

(** [copy.deepcopy(self)] for a [Blockchain]: a new chain object, a new
    list object, new block objects, new dictionaries. *)
Definition deepcopy (self : loc) : M loc :=
  l <- get_blocks self ;;
  items <- read_list l ;;
  r <- deepcopy_items [] items ;;
  l' <- alloc (OList (snd r)) ;;
  alloc (OChain l').

(** [Blockchain.fork].  [if upto:] is taken for every integer but [0]. *)
Definition fork (self : loc) (upto : Z) : M loc :=
  new_block <- deepcopy self ;;
  (if negb (upto =? 0)%Z
   then l <- get_blocks new_block ;;
        l' <- list_slice_upto l upto ;;
        set_blocks new_block l'
   else ret tt) ;;;
  ret new_block.

(** [self.fork()]: the default value of [upto] is [-1]. *)
Definition fork_default (self : loc) : M loc := fork self (-1).

(** [a != b] on two [Block] objects.  The class defines neither [__eq__]
    nor [__ne__], so the comparison is the one of [object]: two references
    are equal when they are the same object. *)
Definition block_ne (a b : loc) : bool := negb (Nat.eqb a b).

(** The loop of [Blockchain.get_root] over the rest of [range(1, min_len)]. *)
Fixpoint get_root_loop (self child_chain : loc) (range : list nat)
    (min_len : nat) : M loc :=
  match range with
  | [] => fork self (Z.of_nat min_len)
  | i :: range' =>
      la <- get_blocks self ;;
      a <- list_getitem la (Z.of_nat i) ;;
      lb <- get_blocks child_chain ;;
      b <- list_getitem lb (Z.of_nat i) ;;
      if block_ne a b then fork self (Z.of_nat i)
      else get_root_loop self child_chain range' min_len
  end.

(** [Blockchain.get_root] *)
Definition get_root (self child_chain : loc) : M loc :=
  n1 <- length_ self ;;
  n2 <- length_ child_chain ;;
  let min_len := Nat.min n1 n2 in
  get_root_loop self child_chain (py_range 1 min_len) min_len.

(** ** What a chain looks like from outside *)

Definition heap_dict (h : heap) (d : loc) : option json :=
  match h !! d with Some (ODict j) => Some j | _ => None end.

(** The [Block] object at [l]. *)
Definition heap_object (h : heap) (l : loc) : option Block :=
  match h !! l with Some (OBlock b) => Some b | _ => None end.

(** The block at [l], read with what its dictionary holds in [h]. *)
Definition heap_block (h : heap) (l : loc) : option BlockView :=
  match heap_object h l with
  | Some b =>
      match heap_dict h (data b) with
      | Some j => Some (with_data b j)
      | None => None
      end
  | None => None
  end.

Definition heap_list (h : heap) (l : loc) : option (list loc) :=
  match h !! l with Some (OList items) => Some items | _ => None end.

Definition chain_list (h : heap) (c : loc) : option loc :=
  match h !! c with Some (OChain l) => Some l | _ => None end.

(** The addresses of the blocks of chain [c], in order. *)
Definition chain_locs (h : heap) (c : loc) : option (list loc) :=
  match chain_list h c with
  | Some l => heap_list h l
  | None => None
  end.

(** The dictionaries the blocks of chain [c] refer to, in order. *)
Definition chain_dicts (h : heap) (c : loc) : option (list loc) :=
  match chain_locs h c with
  | Some ls => mapM (fun x => data <$> heap_object h x) ls
  | None => None
  end.

(** The blocks of chain [c], by value, in order. *)
Definition chain_view (h : heap) (c : loc) : option (list BlockView) :=
  match chain_locs h c with
  | Some ls => mapM (heap_block h) ls
  | None => None
  end.

(** ** The specification of [validate], in the words of the design

    Four checks, in a fixed order, at every position from 1 to the end; a
    violation is a position and the check that fails there. *)

Inductive check : Type :=
| IndexContinuity
| HashLinkage
| DigestMismatch
| TimestampBackdating.

Definition all_checks : list check :=
  [IndexContinuity; HashLinkage; DigestMismatch; TimestampBackdating].

Definition check_rank (k : check) : nat :=
  match k with
  | IndexContinuity => 0
  | HashLinkage => 1
  | DigestMismatch => 2
  | TimestampBackdating => 3
  end.

(** Check [k] fails at position [i], whose block is [cur] and whose
    predecessor is [prev]. *)
Definition check_fails (prev cur : BlockView) (i : nat) (k : check) : bool :=
  match k with
  | IndexContinuity => negb (index cur =? Z.of_nat i)%Z
  | HashLinkage => negb (String.eqb (hash prev) (previous_hash cur))
  | DigestMismatch => negb (String.eqb (hash cur) (generate_hash cur))
  | TimestampBackdating => str_ge (timestamp prev) (timestamp cur)
  end.

Definition violations_at (blocks : list BlockView) (i : nat) : list (nat * check) :=
  match blocks !! i, blocks !! (i - 1) with
  | Some cur, Some prev => map (pair i) (List.filter (check_fails prev cur i) all_checks)
  | _, _ => []
  end.

Definition violations_spec (blocks : list BlockView) : list (nat * check) :=
  flat_map (violations_at blocks) (py_range 1 (length blocks)).

(** Violations are ordered by position, then by the order of the checks. *)
Definition violation_lt (v w : nat * check) : Prop :=
  fst v < fst w \/ (fst v = fst w /\ check_rank (snd v) < check_rank (snd w)).

Definition describe (v : nat * check) : string :=
  fmt_error (match snd v with
             | IndexContinuity => "Wrong block index"
             | HashLinkage => "Wrong previous hash"
             | DigestMismatch => "Wrong hash"
             | TimestampBackdating => "Backdating"
             end) (fst v).

(** The verdict: no violation at all. *)
Definition no_violation (blocks : list BlockView) : bool :=
  match violations_spec blocks with
  | [] => true
  | _ :: _ => false
  end.

(** ** Sequences of calls *)

(** What a call passes as [data]: a dictionary the caller holds already,
    or a dictionary display, which makes a new object at the call. *)
Inductive payload_arg : Type :=
  | Held (d : loc)
  | Display (j : json).

Definition pass_payload (a : payload_arg) : M loc :=
  match a with
  | Held d => ret d
  | Display j => new_dict j
  end.

(** What the dictionary passed holds at the call, in heap [h]. *)
Definition arg_payload (h : heap) (a : payload_arg) : option json :=
  match a with
  | Held d => heap_dict h d
  | Display j => Some j
  end.

(** One [insert_block] call after the other and nothing in between: each
    call has the dictionary it passes and the clock reading it gets. *)
Fixpoint insert_blocks (self : loc) (calls : list (payload_arg * string))
    : M unit :=
  match calls with
  | [] => ret tt
  | (a, now) :: calls' =>
      d <- pass_payload a ;;
      insert_block self d now ;;;
      insert_blocks self calls'
  end.


(** Every object [h] has is the same in [h']. *)
Definition heap_ext (h h' : heap) : Prop :=
  forall (y : loc) (o : obj), h !! y = Some o -> h' !! y = Some o.

(** The scenario of the ancestor test: a chain [A] of three blocks, its
    fork [B] taken with no argument, one more block on each, then
    [A.get_root(B)].  The result is the lengths of [A], [B] and the root. *)
Definition ancestor_scenario : M (nat * nat * nat) :=
  A <- Blockchain_init "1700000000.0" ;;
  insert_block_display A (JDict [("v", JInt 1)]) "1700000001.0" ;;;
  insert_block_display A (JDict [("v", JInt 2)]) "1700000002.0" ;;;
  B <- fork_default A ;;
  insert_block_display A (JDict [("v", JInt 3)]) "1700000003.0" ;;;
  insert_block_display B (JDict [("v", JStr "X")]) "1700000003.5" ;;;
  R <- get_root A B ;;
  a <- length_ A ;;
  b <- length_ B ;;
  r <- length_ R ;;
  ret (a, b, r).

(** The scenario without divergence: a chain [A] of three blocks, its fork
    [B = A.fork(upto)], and [A.get_root(B)] with nothing appended to
    either.  The result is the lengths of [A], [B] and the root. *)
Definition no_divergence_scenario (upto : Z) : M (nat * nat * nat) :=
  A <- Blockchain_init "1700000000.0" ;;
  insert_block_display A (JDict [("v", JInt 1)]) "1700000001.0" ;;;
  insert_block_display A (JDict [("v", JInt 2)]) "1700000002.0" ;;;
  B <- fork A upto ;;
  R <- get_root A B ;;
  a <- length_ A ;;
  b <- length_ B ;;
  r <- length_ R ;;
  ret (a, b, r).



(** The blocks [fork] keeps. *)
Definition fork_blocks {A} (items : list A) (upto : Z) : list A :=
  if (upto =? 0)%Z then items else py_slice_upto items upto.

(** [y], made at address [n] or later, is the copy of [x]: either both
    are blocks with the same attributes but [data], which are two
    dictionaries holding the same, that of [y] made at [n] or later; or
    both are dictionaries holding the same. *)
Definition copy_of (n : nat) (h : heap) (x y : loc) : Prop :=
  n <= y /\
  ((exists (b : Block) (d' : loc) (j : json),
       h !! x = Some (OBlock b) /\ h !! y = Some (OBlock (with_data b d')) /\
       n <= d' /\ h !! data b = Some (ODict j) /\ h !! d' = Some (ODict j)) \/
   (exists j : json, h !! x = Some (ODict j) /\ h !! y = Some (ODict j))).

Definition memo_ok (n : nat) (h : heap) (memo : list (loc * loc)) : Prop :=
  forall x y, memo_get memo x = Some y -> copy_of n h x y.

(** The block object at [y] refers to a dictionary made at [n] or later. *)
Definition data_from (n : nat) (h : heap) (y : loc) : Prop :=
  exists b : Block, heap_object h y = Some b /\ n <= data b.

(** [c'] is a chain of [h'] whose blocks are [bs'] by value, and the chain
    object, its list object, its block objects and their dictionaries are
    all objects that [h] does not have. *)
Definition fresh_chain (h h' : heap) (c' : loc) (bs' : list BlockView) : Prop :=
  exists l' ls',
    length h <= c' /\ length h <= l' /\
    List.Forall (fun y => length h <= y) ls' /\
    List.Forall (data_from (length h) h') ls' /\
    chain_list h' c' = Some l' /\ heap_list h' l' = Some ls' /\
    mapM (heap_block h') ls' = Some bs'.

(** A call of [insert_block] on chain [c], whether it returns or raises,
    leaves chain [c'] as it was: the same block objects [ls], the same
    blocks [blocks] by value, the same length. *)
Definition untouched_by_insert (h : heap) (c c' : loc) (ls : list loc)
    (blocks : list BlockView) : Prop :=
  forall (d : loc) (now : string) (r : outcome loc) (h' : heap),
    insert_block c d now h = (r, h') ->
    chain_locs h' c' = Some ls /\ chain_view h' c' = Some blocks /\
    length_ c' h' = (Return (length blocks), h').

(** ** Sample chains *)

Definition sample_genesis : BlockView :=
  Block_view_init 0 "1700000000.0" genesis_data "Liberate my madness...".
Definition sample_block1 : BlockView :=
  Block_view_init 1 "1700000001.0" (JDict [("v", JInt 1)]) (hash sample_genesis).
Definition sample_block2 : BlockView :=
  Block_view_init 2 "1700000002.0" (JDict [("v", JInt 2)]) (hash sample_block1).

(** The heap after [A = Blockchain()] and two [insert_block] calls on an
    empty heap; [A] is at address 3 and its blocks at 1, 5 and 7. *)
Definition sample_heap : heap :=
  snd ((A <- Blockchain_init "1700000000.0" ;;
        insert_block_display A (JDict [("v", JInt 1)]) "1700000001.0" ;;;
        insert_block_display A (JDict [("v", JInt 2)]) "1700000002.0") []).

(** The heap after [B = A.fork()] on [sample_heap]; [B] is at address 15
    and its blocks at 9 and 11. *)
Definition sample_forked_heap : heap := snd (fork_default 3 sample_heap).

(** [sample_heap] with one more dictionary, at address 8, not yet passed
    to any call. *)
Definition sample_heap_with_dict : heap :=
  sample_heap ++ [ODict (JDict [("v", JInt 3)])].

(** Two dictionaries, at addresses 0 and 1. *)
Definition two_dicts_heap : heap :=
  [ODict (JDict [("v", JInt 1)]); ODict (JDict [("v", JInt 2)])].

(** Two blocks with the same four attributes and different stored hashes,
    as after [b.hash = ...]. *)
Definition stored_block : BlockView :=
  mkBlock 1 "1700000001.0" (JDict [("v", JInt 1)]) "prev" "stored".
Definition overwritten_block : BlockView :=
  mkBlock 1 "1700000001.0" (JDict [("v", JInt 1)]) "prev" "overwritten".

(** A chain whose second block fails the four checks: it was put in the
    list by hand, with fields of its own. *)
Definition tampered_block : BlockView :=
  mkBlock 5 "1600000000.0" (JDict []) "no such hash" "beef".
Definition tampered_heap : heap :=
  [ODict genesis_data; OBlock (with_data sample_genesis 0);
   ODict (JDict []); OBlock (with_data tampered_block 2);
   OList [1; 3]; OChain 4].
Definition lone_tampered_heap : heap :=
  [ODict (JDict []); OBlock (with_data tampered_block 0); OList [1]; OChain 2].

(** The heap after [Blockchain().fork()] on an empty heap: the chain is at
    address 3 and the fork, at address 7, has no block. *)
Definition empty_fork_heap : heap :=
  snd ((A <- Blockchain_init "1700000000.0" ;; fork_default A) []).

(** The invariant of a well-formed chain, position by position: every
    block after the first has its position as index, the hash of the
    block before it as previous hash, its own digest as hash, and a
    timestamp greater than the one before. *)
Definition chain_invariant (blocks : list BlockView) : Prop :=
  forall (i : nat) (prev cur : BlockView),
    1 <= i -> blocks !! (i - 1) = Some prev -> blocks !! i = Some cur ->
    index cur = Z.of_nat i /\ previous_hash cur = hash prev /\
    hash cur = generate_hash cur /\
    str_lt (timestamp prev) (timestamp cur) = true.

(** The number of blocks [fork(upto)] keeps of a chain of [n] blocks. *)
Definition fork_length (n : nat) (upto : Z) : nat :=
  if (upto =? 0)%Z then n
  else if (upto <? 0)%Z then Z.to_nat (Z.of_nat n + upto)
  else Nat.min (Z.to_nat upto) n.

Definition is_hex_digit (c : ascii) : bool :=
  let n := code_point c in
  ((48 <=? n) && (n <=? 57) || (97 <=? n) && (n <=? 102))%Z.

Fixpoint string_forallb (f : ascii -> bool) (s : string) : bool :=
  match s with
  | EmptyString => true
  | String c s' => f c && string_forallb f s'
  end.

(** [sample_genesis] after its index, payload and previous hash were
    overwritten; and two chains of two blocks, one starting with each. *)
Definition edited_genesis : BlockView :=
  mkBlock 7 "1700000000.0" (JDict [("author", JStr "Mallory")]) "other"
    (hash sample_genesis).
Definition two_block_heap (first : BlockView) : heap :=
  [ODict (data first); OBlock (with_data first 0);
   ODict (data sample_block1); OBlock (with_data sample_block1 2);
   OList [1; 3]; OChain 4].


(** No check but the one on timestamps fails anywhere in the chain. *)
Definition only_backdating (blocks : list BlockView) : Prop :=
  forall (i : nat) (k : check),
    In (i, k) (violations_spec blocks) -> k = TimestampBackdating.

#[global] Arguments SHA256.hexdigest : simpl never.
#[global] Arguments generate_hash : simpl never.
#[global] Arguments str_of_int : simpl never.

(** * Properties *)

(** ** The library models agree with the libraries on known values *)

Example sha256_empty :
  SHA256.hexdigest [] = "e3b0c44298fc1c149afbf4c8996fb92427ae41e4649b934ca495991b7852b855".
Proof. vm_compute. reflexivity. Qed.

Example sha256_abc :
  SHA256.hexdigest (encode_utf8 "abc")
  = "ba7816bf8f01cfea414140de5dae2223b00361a396177a9cb410ff61f20015ad".
Proof. vm_compute. reflexivity. Qed.

Example sha256_two_chunks :
  SHA256.hexdigest (encode_utf8 "abcdbcdecdefdefgefghfghighijhijkijkljklmklmnlmnomnopnopq")
  = "248d6a61d20638b8e5c026930c3e6039a33ce45964ff2167f6ecedd419db06c1".
Proof. vm_compute. reflexivity. Qed.

Example sha256_constants :
  (nth 0 SHA256.K 0, nth 63 SHA256.K 0, nth 0 SHA256.H0 0, nth 7 SHA256.H0 0)%Z
  = (0x428a2f98, 0xc67178f2, 0x6a09e667, 0x5be0cd19)%Z.
Proof. reflexivity. Qed.

Example str_of_int_samples :
  (str_of_int 0, str_of_int 42, str_of_int (-7)) = ("0", "42", "-7").
Proof. reflexivity. Qed.

Example json_dumps_sample :
  json_dumps (JDict [("v", JInt 1); ("l", JList [JNull; JBool true; JInt (-3)])])
  = String.concat (String dquote EmptyString)
      ["{"; "v"; ": 1, "; "l"; ": [null, true, -3]}"].
Proof. vm_compute. reflexivity. Qed.

Example py_slice_samples :
  (py_slice_upto [1; 2; 3] (-1), py_slice_upto [1; 2; 3] (-5),
   py_slice_upto [1; 2] 7, py_slice_upto (@nil nat) (-1))
  = ([1; 2], [], [1; 2], []).
Proof. reflexivity. Qed.

(** The digest of the genesis block made at ["1700000000.0"], as
    [hashlib] gives it. *)
Example genesis_hash_sample :
  hash (Block_view_init 0 "1700000000.0" genesis_data "Liberate my madness...")
  = "d76c16b640f956789bc5f1d52306627d4fc3a4c3d0450058454c93d136be6fe5".
Proof. vm_compute. reflexivity. Qed.

(** ** Running the primitive operations *)

Lemma bind_Return {A B} (m : M A) (k : A -> M B) (h h' : heap) (a : A) :
  m h = (Return a, h') -> bind m k h = k a h'.
Proof. intros Hm. unfold bind. rewrite Hm. reflexivity. Qed.

Lemma bind_Raise {A B} (m : M A) (k : A -> M B) (h h' : heap) (e : exn) :
  m h = (Raise e, h') -> bind m k h = (Raise e, h').
Proof. intros Hm. unfold bind. rewrite Hm. reflexivity. Qed.

Lemma heap_dict_Some (h : heap) (d : loc) (j : json) :
  heap_dict h d = Some j <-> h !! d = Some (ODict j).
Proof.
  unfold heap_dict. destruct (h !! d) as [[b'|its|l|j0]|]; split; congruence.
Qed.

Lemma heap_object_Some (h : heap) (x : loc) (b : Block) :
  heap_object h x = Some b <-> h !! x = Some (OBlock b).
Proof.
  unfold heap_object. destruct (h !! x) as [[b'|its|l|j0]|]; split; congruence.
Qed.

Lemma heap_block_Some (h : heap) (x : loc) (v : BlockView) :
  heap_block h x = Some v <->
  exists (b : Block) (j : json),
    h !! x = Some (OBlock b) /\ h !! data b = Some (ODict j) /\
    v = with_data b j.
Proof.
  unfold heap_block. split.
  - destruct (heap_object h x) as [b|] eqn:Hb; [|discriminate].
    destruct (heap_dict h (data b)) as [j|] eqn:Hj; [|discriminate].
    intros [= <-]. exists b, j.
    apply heap_object_Some in Hb. apply heap_dict_Some in Hj. auto.
  - intros (b & j & Hb%heap_object_Some & Hj%heap_dict_Some & ->).
    rewrite Hb, Hj. reflexivity.
Qed.

Lemma heap_block_at (h : heap) (x : loc) (b : Block) (j : json) :
  h !! x = Some (OBlock b) -> h !! data b = Some (ODict j) ->
  heap_block h x = Some (with_data b j).
Proof. intros Hb Hj. apply heap_block_Some. exists b, j. auto. Qed.

Lemma heap_list_Some (h : heap) (l : loc) (ls : list loc) :
  heap_list h l = Some ls <-> h !! l = Some (OList ls).
Proof.
  unfold heap_list. destruct (h !! l) as [[b'|its|l'|j0]|]; split; congruence.
Qed.

Lemma chain_list_Some (h : heap) (c l : loc) :
  chain_list h c = Some l <-> h !! c = Some (OChain l).
Proof.
  unfold chain_list. destruct (h !! c) as [[b'|its|l'|j0]|]; split; congruence.
Qed.

Lemma get_blocks_run (h : heap) (c l : loc) :
  chain_list h c = Some l -> get_blocks c h = (Return l, h).
Proof. intros H%chain_list_Some. unfold get_blocks. rewrite H. reflexivity. Qed.

Lemma read_list_run (h : heap) (l : loc) (ls : list loc) :
  heap_list h l = Some ls -> read_list l h = (Return ls, h).
Proof. intros H%heap_list_Some. unfold read_list. rewrite H. reflexivity. Qed.

Lemma read_dict_run (h : heap) (d : loc) (j : json) :
  heap_dict h d = Some j -> read_dict d h = (Return j, h).
Proof. intros H%heap_dict_Some. unfold read_dict. rewrite H. reflexivity. Qed.

Lemma read_object_run (h : heap) (x : loc) (b : Block) :
  heap_object h x = Some b -> read_block x h = (Return b, h).
Proof. intros H%heap_object_Some. unfold read_block. rewrite H. reflexivity. Qed.

(** Reading the attributes of a block that can be read with its
    dictionary. *)
Lemma read_block_run (h : heap) (x : loc) (v : BlockView) :
  heap_block h x = Some v ->
  exists b : Block,
    read_block x h = (Return b, h) /\ heap_object h x = Some b /\
    heap_dict h (data b) = Some (data v) /\ v = with_data b (data v).
Proof.
  intros (b & j & Hb & Hj & ->)%heap_block_Some. exists b.
  split; [unfold read_block; rewrite Hb; reflexivity|].
  split; [apply heap_object_Some, Hb|]. split; [apply heap_dict_Some, Hj|].
  reflexivity.
Qed.

Lemma read_view_run (h : heap) (x : loc) (v : BlockView) :
  heap_block h x = Some v -> read_view x h = (Return v, h).
Proof.
  intros (b & j & Hb & Hj & ->)%heap_block_Some. unfold read_view.
  rewrite (bind_Return _ _ h h b) by (unfold read_block; rewrite Hb; reflexivity).
  rewrite (bind_Return _ _ h h j) by (unfold read_dict; rewrite Hj; reflexivity).
  reflexivity.
Qed.

Lemma read_blocks_run (h : heap) (ls : list loc) (bs : list BlockView) :
  mapM (heap_block h) ls = Some bs -> read_blocks ls h = (Return bs, h).
Proof.
  intros H%mapM_Some. induction H as [|x b ls bs Hx _ IH]; simpl.
  - reflexivity.
  - rewrite (bind_Return _ _ _ _ _ (read_view_run _ _ _ Hx)).
    rewrite (bind_Return _ _ _ _ _ IH). reflexivity.
Qed.

Lemma chain_view_inv (h : heap) (c : loc) (bs : list BlockView) :
  chain_view h c = Some bs ->
  exists l ls, chain_list h c = Some l /\ heap_list h l = Some ls
               /\ mapM (heap_block h) ls = Some bs.
Proof.
  unfold chain_view, chain_locs. intros H.
  destruct (chain_list h c) as [l|]; [|discriminate].
  destruct (heap_list h l) as [ls|] eqn:Hl; [|discriminate].
  exists l, ls. auto.
Qed.

Lemma chain_view_intro (h : heap) (c l : loc) (ls : list loc) (bs : list BlockView) :
  chain_list h c = Some l -> heap_list h l = Some ls ->
  mapM (heap_block h) ls = Some bs -> chain_view h c = Some bs.
Proof.
  intros Hc Hl Hbs. unfold chain_view, chain_locs. rewrite Hc, Hl. exact Hbs.
Qed.

Lemma mapM_length_eq (h : heap) (ls : list loc) (bs : list BlockView) :
  mapM (heap_block h) ls = Some bs -> length ls = length bs.
Proof. intros H%mapM_Some. eapply Forall2_length, H. Qed.

Lemma length_run (h : heap) (c : loc) (bs : list BlockView) :
  chain_view h c = Some bs -> length_ c h = (Return (length bs), h).
Proof.
  intros (l & ls & Hc & Hl & Hbs)%chain_view_inv.
  unfold length_, list_len.
  rewrite (bind_Return _ _ _ _ _ (get_blocks_run _ _ _ Hc)).
  rewrite (bind_Return _ _ _ _ _ (read_list_run _ _ _ Hl)).
  unfold ret. rewrite (mapM_length_eq _ _ _ Hbs). reflexivity.
Qed.

(** ** [validate] against its specification *)

Lemma validate_body_spec (blocks : list BlockView) (i : nat) (cur prev : BlockView)
    (flag : bool) (errors : list string) :
  blocks !! i = Some cur -> blocks !! (i - 1) = Some prev ->
  validate_body blocks i (flag, errors)
  = Some (flag && match violations_at blocks i with [] => true | _ => false end,
          errors ++ map describe (violations_at blocks i)).
Proof.
  intros Hc Hp. unfold validate_body, violations_at. rewrite Hc, Hp.
  unfold all_checks. cbn [List.filter check_fails].
  destruct (negb (index cur =? Z.of_nat i)%Z);
    destruct (negb (String.eqb (hash prev) (previous_hash cur)));
    destruct (negb (String.eqb (hash cur) (generate_hash cur)));
    destruct (str_ge (timestamp prev) (timestamp cur));
    cbn [snd fst map describe]; rewrite <- ?app_assoc; cbn [app];
    rewrite ?andb_false_r, ?andb_true_r, ?app_nil_r; reflexivity.
Qed.

Lemma validate_loop_spec (blocks : list BlockView) (range : list nat) :
  Forall (fun i => 1 <= i < length blocks) range ->
  forall (flag : bool) (errors : list string),
    validate_loop blocks range (flag, errors)
    = Some (flag && match flat_map (violations_at blocks) range with
                    | [] => true | _ => false end,
            errors ++ map describe (flat_map (violations_at blocks) range)).
Proof.
  induction 1 as [|i range Hi _ IH]; intros flag errors; simpl.
  - rewrite andb_true_r, app_nil_r. reflexivity.
  - destruct (lookup_lt_is_Some_2 blocks i) as [cur Hc]; [lia|].
    destruct (lookup_lt_is_Some_2 blocks (i - 1)) as [prev Hp]; [lia|].
    rewrite (validate_body_spec _ _ _ _ _ _ Hc Hp), IH.
    rewrite map_app, app_assoc, <- andb_assoc. repeat f_equal.
    destruct (violations_at blocks i); reflexivity.
Qed.

Lemma py_range_bounds (n : nat) :
  Forall (fun i => 1 <= i < n) (py_range 1 n).
Proof.
  apply List.Forall_forall. intros i Hi. unfold py_range in Hi.
  apply in_seq in Hi. lia.
Qed.

Lemma validate_blocks_spec (blocks : list BlockView) :
  validate_blocks blocks
  = Some (no_violation blocks, map describe (violations_spec blocks)).
Proof.
  unfold validate_blocks. rewrite validate_loop_spec by apply py_range_bounds.
  reflexivity.
Qed.

Lemma validate_run (h : heap) (c : loc) (blocks : list BlockView) :
  chain_view h c = Some blocks ->
  validate c h
  = (Return (no_violation blocks, map describe (violations_spec blocks)), h).
Proof.
  intros (l & ls & Hc & Hl & Hbs)%chain_view_inv. unfold validate.
  rewrite (bind_Return _ _ _ _ _ (get_blocks_run _ _ _ Hc)).
  rewrite (bind_Return _ _ _ _ _ (read_list_run _ _ _ Hl)).
  rewrite (bind_Return _ _ _ _ _ (read_blocks_run _ _ _ Hbs)).
  rewrite validate_blocks_spec. reflexivity.
Qed.

Lemma violations_at_fst (blocks : list BlockView) (i : nat) (v : nat * check) :
  In v (violations_at blocks i) -> fst v = i.
Proof.
  unfold violations_at.
  destruct (blocks !! i), (blocks !! (i - 1)); try contradiction.
  intros (k & <- & _)%in_map_iff. reflexivity.
Qed.

Lemma violations_at_sorted (blocks : list BlockView) (i : nat) :
  StronglySorted violation_lt (violations_at blocks i).
Proof.
  unfold violations_at.
  destruct (blocks !! i) as [cur|], (blocks !! (i - 1)) as [prev|];
    try constructor.
  unfold all_checks. cbn [List.filter].
  destruct (check_fails prev cur i IndexContinuity),
           (check_fails prev cur i HashLinkage),
           (check_fails prev cur i DigestMismatch),
           (check_fails prev cur i TimestampBackdating); cbn [map];
    repeat match goal with
           | |- StronglySorted _ [] => apply SSorted_nil
           | |- StronglySorted _ (_ :: _) => apply SSorted_cons
           | |- List.Forall _ [] => apply List.Forall_nil
           | |- List.Forall _ (_ :: _) => apply List.Forall_cons
           end;
    right; cbn [fst snd check_rank]; (split; [reflexivity | lia]).
Qed.

Lemma violations_from_sorted (blocks : list BlockView) (n a : nat) :
  StronglySorted violation_lt (flat_map (violations_at blocks) (seq a n)).
Proof.
  revert a. induction n as [|n IH]; intros a; simpl.
  - constructor.
  - apply StronglySorted_app_2; [|apply violations_at_sorted|apply IH].
    intros v w Hv%list_elem_of_In Hw%list_elem_of_In.
    apply violations_at_fst in Hv.
    apply in_flat_map in Hw as (j & Hj%in_seq & Hw%violations_at_fst).
    left. lia.
Qed.

Lemma violations_spec_In (blocks : list BlockView) (i : nat) (k : check) :
  In (i, k) (violations_spec blocks) <->
  1 <= i < length blocks /\
  exists prev cur, blocks !! (i - 1) = Some prev /\ blocks !! i = Some cur
                   /\ check_fails prev cur i k = true.
Proof.
  unfold violations_spec, py_range. rewrite in_flat_map. split.
  - intros (j & Hj%in_seq & Hv).
    assert (j = i) as -> by (apply violations_at_fst in Hv; symmetry; exact Hv).
    split; [lia|]. unfold violations_at in Hv.
    destruct (blocks !! i) as [cur|], (blocks !! (i - 1)) as [prev|];
      try contradiction.
    apply in_map_iff in Hv as (k' & [= ->] & Hk%filter_In).
    exists prev, cur. tauto.
  - intros (Hi & prev & cur & Hp & Hc & Hf). exists i. split.
    + apply in_seq. lia.
    + unfold violations_at. rewrite Hc, Hp. apply in_map, filter_In.
      split; [|exact Hf]. unfold all_checks. destruct k; simpl; tauto.
Qed.

(** C4: [validate] runs the four checks at every position from 1 to the
    end, whatever the earlier positions gave.  Its list of errors is the
    list of all violations, each described, ordered by position and, at
    one position, in the order index continuity, hash linkage, digest
    mismatch, timestamp backdating; its boolean is true exactly when the
    list is empty.  The chain is left as it was. *)
Theorem validate_exhaustive_ordered (h : heap) (c : loc) (blocks : list BlockView) :
  chain_view h c = Some blocks ->
  exists (flag : bool) (errors : list string),
    validate c h = (Return (flag, errors), h) /\
    errors = map describe (violations_spec blocks) /\
    (forall i k, In (i, k) (violations_spec blocks) <->
       1 <= i < length blocks /\
       exists prev cur, blocks !! (i - 1) = Some prev /\ blocks !! i = Some cur
                        /\ check_fails prev cur i k = true) /\
    StronglySorted violation_lt (violations_spec blocks) /\
    (flag = true <-> errors = []).
Proof.
  intros Hv. exists (no_violation blocks), (map describe (violations_spec blocks)).
  split; [apply validate_run, Hv|]. split; [reflexivity|].
  split; [apply violations_spec_In|]. split; [apply violations_from_sorted|].
  unfold no_violation. destruct (violations_spec blocks); simpl; split;
    congruence.
Qed.

(** ** How the heap changes *)

Lemma heap_ext_refl (h : heap) : heap_ext h h.
Proof. intros y o H. exact H. Qed.

Lemma heap_ext_trans (h1 h2 h3 : heap) :
  heap_ext h1 h2 -> heap_ext h2 h3 -> heap_ext h1 h3.
Proof. intros H12 H23 y o H. apply H23, H12, H. Qed.

Lemma heap_ext_alloc (h : heap) (o : obj) : heap_ext h (h ++ [o]).
Proof. intros y o' H. apply lookup_app_l_Some, H. Qed.

Lemma heap_ext_insert_fresh (h h' : heap) (y : loc) (o : obj) :
  heap_ext h h' -> length h <= y -> heap_ext h (<[y := o]> h').
Proof.
  intros Hext Hy z o' Hz. rewrite list_lookup_insert_ne.
  - apply Hext, Hz.
  - apply lookup_lt_Some in Hz. lia.
Qed.

Lemma heap_ext_length (h h' : heap) : heap_ext h h' -> length h <= length h'.
Proof.
  intros Hext. destruct h as [|o h0] using rev_ind; [simpl; lia|].
  rewrite length_app. simpl.
  assert ((h0 ++ [o]) !! length h0 = Some o) as Hl.
  { rewrite lookup_app_r by lia. rewrite Nat.sub_diag. reflexivity. }
  apply Hext, lookup_lt_Some in Hl. lia.
Qed.

Lemma heap_ext_block (h h' : heap) (x : loc) (b : BlockView) :
  heap_ext h h' -> heap_block h x = Some b -> heap_block h' x = Some b.
Proof.
  intros Hext (b0 & j & Hb & Hj & ->)%heap_block_Some.
  apply heap_block_at; apply Hext; assumption.
Qed.

Lemma heap_ext_dict (h h' : heap) (d : loc) (j : json) :
  heap_ext h h' -> heap_dict h d = Some j -> heap_dict h' d = Some j.
Proof. intros Hext Hd%heap_dict_Some. apply heap_dict_Some, Hext, Hd. Qed.

Lemma heap_ext_object (h h' : heap) (x : loc) (b : Block) :
  heap_ext h h' -> heap_object h x = Some b -> heap_object h' x = Some b.
Proof. intros Hext Hx%heap_object_Some. apply heap_object_Some, Hext, Hx. Qed.

Lemma heap_ext_list (h h' : heap) (l : loc) (ls : list loc) :
  heap_ext h h' -> heap_list h l = Some ls -> heap_list h' l = Some ls.
Proof. intros Hext Hl%heap_list_Some. apply heap_list_Some, Hext, Hl. Qed.

Lemma heap_ext_chain (h h' : heap) (c l : loc) :
  heap_ext h h' -> chain_list h c = Some l -> chain_list h' c = Some l.
Proof. intros Hext Hc%chain_list_Some. apply chain_list_Some, Hext, Hc. Qed.

Lemma heap_ext_blocks (h h' : heap) (ls : list loc) (bs : list BlockView) :
  heap_ext h h' ->
  mapM (heap_block h) ls = Some bs -> mapM (heap_block h') ls = Some bs.
Proof.
  intros Hext H%mapM_Some. apply mapM_Some.
  eapply Forall2_impl; [exact H|]. intros x b Hx. eapply heap_ext_block; eauto.
Qed.

Lemma heap_ext_chain_view (h h' : heap) (c : loc) (bs : list BlockView) :
  heap_ext h h' -> chain_view h c = Some bs -> chain_view h' c = Some bs.
Proof.
  intros Hext (l & ls & Hc & Hl & Hbs)%chain_view_inv.
  eapply chain_view_intro;
    eauto using heap_ext_chain, heap_ext_list, heap_ext_blocks.
Qed.

Lemma heap_ext_chain_locs (h h' : heap) (c : loc) (ls : list loc) :
  heap_ext h h' -> chain_locs h c = Some ls -> chain_locs h' c = Some ls.
Proof.
  intros Hext. unfold chain_locs.
  destruct (chain_list h c) as [l|] eqn:Hc; [|discriminate].
  intros Hl. rewrite (heap_ext_chain _ _ _ _ Hext Hc).
  eapply heap_ext_list; eauto.
Qed.

(** Writing a list object where there was a list object leaves every
    block and every chain object as it was. *)
Lemma lookup_insert_other (h : heap) (l x : loc) (o o' : obj) :
  h !! l = Some o -> (forall o0, h !! x = Some o0 -> o0 <> o) ->
  <[l := o']> h !! x = h !! x.
Proof.
  intros Hl Hx. destruct (decide (l = x)) as [->|Hne].
  - exfalso. eapply Hx; eauto.
  - apply list_lookup_insert_ne, Hne.
Qed.

Lemma heap_object_insert_list (h : heap) (l x : loc) (old new : list loc) :
  heap_list h l = Some old ->
  heap_object (<[l := OList new]> h) x = heap_object h x.
Proof.
  intros Hl%heap_list_Some. unfold heap_object.
  destruct (decide (l = x)) as [->|Hne].
  - rewrite list_lookup_insert_eq by (eapply lookup_lt_Some; eauto).
    rewrite Hl. reflexivity.
  - rewrite list_lookup_insert_ne by exact Hne. reflexivity.
Qed.

Lemma heap_dict_insert_list (h : heap) (l x : loc) (old new : list loc) :
  heap_list h l = Some old ->
  heap_dict (<[l := OList new]> h) x = heap_dict h x.
Proof.
  intros Hl%heap_list_Some. unfold heap_dict.
  destruct (decide (l = x)) as [->|Hne].
  - rewrite list_lookup_insert_eq by (eapply lookup_lt_Some; eauto).
    rewrite Hl. reflexivity.
  - rewrite list_lookup_insert_ne by exact Hne. reflexivity.
Qed.

Lemma heap_block_insert_list (h : heap) (l x : loc) (old new : list loc) :
  heap_list h l = Some old ->
  heap_block (<[l := OList new]> h) x = heap_block h x.
Proof.
  intros Hl. unfold heap_block.
  rewrite (heap_object_insert_list _ _ _ _ _ Hl).
  destruct (heap_object h x) as [b|]; [|reflexivity].
  rewrite (heap_dict_insert_list _ _ _ _ _ Hl). reflexivity.
Qed.

Lemma chain_list_insert_list (h : heap) (l c : loc) (old new : list loc) :
  heap_list h l = Some old ->
  chain_list (<[l := OList new]> h) c = chain_list h c.
Proof.
  intros Hl%heap_list_Some. unfold chain_list.
  destruct (decide (l = c)) as [->|Hne].
  - rewrite list_lookup_insert_eq by (eapply lookup_lt_Some; eauto).
    rewrite Hl. reflexivity.
  - rewrite list_lookup_insert_ne by exact Hne. reflexivity.
Qed.

Lemma heap_list_insert_eq (h : heap) (l : loc) (old new : list loc) :
  heap_list h l = Some old ->
  heap_list (<[l := OList new]> h) l = Some new.
Proof.
  intros Hl%heap_list_Some. unfold heap_list.
  rewrite list_lookup_insert_eq by (eapply lookup_lt_Some; eauto). reflexivity.
Qed.

Lemma heap_list_insert_ne (h : heap) (l l' : loc) (o : obj) :
  l <> l' -> heap_list (<[l := o]> h) l' = heap_list h l'.
Proof.
  intros Hne. unfold heap_list. rewrite list_lookup_insert_ne by exact Hne.
  reflexivity.
Qed.

(** Writing a chain object where there was a chain object leaves every
    block and every list object as it was. *)
Lemma heap_object_insert_chain (h : heap) (c x : loc) (old new : loc) :
  chain_list h c = Some old ->
  heap_object (<[c := OChain new]> h) x = heap_object h x.
Proof.
  intros Hc%chain_list_Some. unfold heap_object.
  destruct (decide (c = x)) as [->|Hne].
  - rewrite list_lookup_insert_eq by (eapply lookup_lt_Some; eauto).
    rewrite Hc. reflexivity.
  - rewrite list_lookup_insert_ne by exact Hne. reflexivity.
Qed.

Lemma heap_dict_insert_chain (h : heap) (c x : loc) (old new : loc) :
  chain_list h c = Some old ->
  heap_dict (<[c := OChain new]> h) x = heap_dict h x.
Proof.
  intros Hc%chain_list_Some. unfold heap_dict.
  destruct (decide (c = x)) as [->|Hne].
  - rewrite list_lookup_insert_eq by (eapply lookup_lt_Some; eauto).
    rewrite Hc. reflexivity.
  - rewrite list_lookup_insert_ne by exact Hne. reflexivity.
Qed.

Lemma heap_block_insert_chain (h : heap) (c x : loc) (old new : loc) :
  chain_list h c = Some old ->
  heap_block (<[c := OChain new]> h) x = heap_block h x.
Proof.
  intros Hc. unfold heap_block.
  rewrite (heap_object_insert_chain _ _ _ _ _ Hc).
  destruct (heap_object h x) as [b|]; [|reflexivity].
  rewrite (heap_dict_insert_chain _ _ _ _ _ Hc). reflexivity.
Qed.

Lemma heap_list_insert_chain (h : heap) (c l : loc) (old new : loc) :
  chain_list h c = Some old ->
  heap_list (<[c := OChain new]> h) l = heap_list h l.
Proof.
  intros Hc%chain_list_Some. unfold heap_list.
  destruct (decide (c = l)) as [->|Hne].
  - rewrite list_lookup_insert_eq by (eapply lookup_lt_Some; eauto).
    rewrite Hc. reflexivity.
  - rewrite list_lookup_insert_ne by exact Hne. reflexivity.
Qed.

Lemma chain_list_insert_eq (h : heap) (c : loc) (old new : loc) :
  chain_list h c = Some old ->
  chain_list (<[c := OChain new]> h) c = Some new.
Proof.
  intros Hc%chain_list_Some. unfold chain_list.
  rewrite list_lookup_insert_eq by (eapply lookup_lt_Some; eauto). reflexivity.
Qed.

Lemma mapM_heap_block_ext (h h' : heap) (ls : list loc) :
  (forall x, heap_block h' x = heap_block h x) ->
  mapM (heap_block h') ls = mapM (heap_block h) ls.
Proof.
  intros Heq. induction ls as [|x ls IH]; [reflexivity|].
  cbn. rewrite Heq, IH. reflexivity.
Qed.

(** ** Indexing and slicing *)

Lemma py_index_last {A} (items : list A) : py_index items (-1) = last items.
Proof.
  unfold py_index. cbn [Z.ltb Z.compare].
  rewrite last_lookup. destruct items as [|a items]; [reflexivity|].
  cbn [length]. destruct (Z.ltb_spec (-1 + Z.of_nat (S (length items))) 0); [lia|].
  f_equal. lia.
Qed.

Lemma py_index_nat {A} (items : list A) (i : nat) :
  py_index items (Z.of_nat i) = items !! i.
Proof.
  assert ((Z.of_nat i <? 0)%Z = false) as E by (apply Z.ltb_ge; lia).
  unfold py_index. rewrite E. cbv iota. rewrite E, Nat2Z.id. reflexivity.
Qed.

Lemma py_slice_upto_nat {A} (items : list A) (k : nat) :
  py_slice_upto items (Z.of_nat k) = firstn k items.
Proof.
  unfold py_slice_upto. destruct (Z.ltb_spec (Z.of_nat k) 0); [lia|].
  destruct (Nat.le_gt_cases k (length items)).
  - rewrite Z.min_l by lia. rewrite Nat2Z.id. reflexivity.
  - rewrite Z.min_r by lia. rewrite Nat2Z.id.
    rewrite !firstn_all2 by lia. reflexivity.
Qed.

Lemma py_slice_upto_minus_one {A} (items : list A) :
  py_slice_upto items (-1) = removelast items.
Proof.
  unfold py_slice_upto. cbn [Z.ltb Z.compare].
  rewrite removelast_firstn_len.
  destruct items as [|a items]; [reflexivity|].
  f_equal. cbn [length]. lia.
Qed.

Lemma py_slice_upto_Forall2 {A B} (R : A -> B -> Prop) (xs : list A)
    (ys : list B) (upto : Z) :
  Forall2 R xs ys -> Forall2 R (py_slice_upto xs upto) (py_slice_upto ys upto).
Proof.
  intros H. unfold py_slice_upto. rewrite (Forall2_length _ _ _ H).
  apply Forall2_take, H.
Qed.

(** ** [Blockchain()] and [insert_block] *)

Lemma list_len_run (h : heap) (l : loc) (ls : list loc) :
  heap_list h l = Some ls -> list_len l h = (Return (length ls), h).
Proof.
  intros Hl. unfold list_len.
  rewrite (bind_Return _ _ _ _ _ (read_list_run _ _ _ Hl)). reflexivity.
Qed.

Lemma list_getitem_run (h : heap) (l : loc) (ls : list loc) (i : Z) (x : loc) :
  heap_list h l = Some ls -> py_index ls i = Some x ->
  list_getitem l i h = (Return x, h).
Proof.
  intros Hl Hx. unfold list_getitem.
  rewrite (bind_Return _ _ _ _ _ (read_list_run _ _ _ Hl)), Hx. reflexivity.
Qed.

Lemma list_getitem_out (h : heap) (l : loc) (ls : list loc) (i : Z) :
  heap_list h l = Some ls -> py_index ls i = None ->
  list_getitem l i h = (Raise IndexError, h).
Proof.
  intros Hl Hx. unfold list_getitem.
  rewrite (bind_Return _ _ _ _ _ (read_list_run _ _ _ Hl)), Hx. reflexivity.
Qed.

Lemma with_data_view (v : BlockView) (d : loc) :
  with_data (with_data v d) (data v) = v.
Proof. destruct v. reflexivity. Qed.

Lemma Block_init_run (h : heap) (i : Z) (t : string) (d : loc) (j : json)
    (p : string) :
  heap_dict h d = Some j ->
  Block_init i t d p h = (Return (with_data (Block_view_init i t j p) d), h).
Proof.
  intros Hd. unfold Block_init, Block_generate_hash.
  rewrite (bind_Return _ _ h h (generate_hash (mkBlock i t j p EmptyString))).
  - reflexivity.
  - rewrite (bind_Return _ _ _ _ _ (read_dict_run _ _ _ Hd)). reflexivity.
Qed.

Lemma Block_init_fail (h : heap) (i : Z) (t : string) (d : loc) (p : string) :
  heap_dict h d = None -> Block_init i t d p h = (Raise TypeError, h).
Proof.
  intros Hd. unfold Block_init, Block_generate_hash.
  apply bind_Raise, bind_Raise. unfold heap_dict in Hd. unfold read_dict.
  cbn [data]. destruct (h !! d) as [[b'|its|l|j0]|]; congruence.
Qed.

Lemma Blockchain_init_run (h : heap) (now : string) :
  Blockchain_init now h
  = (Return (S (S (S (length h)))),
     h ++ [ODict genesis_data;
           OBlock (with_data
                     (Block_view_init 0 now genesis_data "Liberate my madness...")
                     (length h));
           OList [S (length h)]; OChain (S (S (length h)))]).
Proof.
  unfold Blockchain_init, _generate_genesis_block, new_dict.
  assert (heap_dict (h ++ [ODict genesis_data]) (length h) = Some genesis_data)
    as Hd.
  { apply heap_dict_Some. rewrite lookup_app_r by lia.
    rewrite Nat.sub_diag. reflexivity. }
  unfold bind at 1. unfold bind at 1. unfold alloc at 1.
  rewrite (bind_Return _ _ _ _ _
             (Block_init_run (h ++ [ODict genesis_data]) 0 now (length h)
                genesis_data "Liberate my madness..." Hd)).
  unfold bind, alloc. rewrite !length_app. cbn [length].
  rewrite <- !app_assoc. cbn [app]. repeat f_equal; lia.
Qed.

Lemma Blockchain_init_view (h : heap) (now : string) :
  exists c h',
    Blockchain_init now h = (Return c, h') /\ heap_ext h h' /\
    chain_view h' c
    = Some [Block_view_init 0 now genesis_data "Liberate my madness..."].
Proof.
  eexists _, _. split; [apply Blockchain_init_run|]. split.
  - intros y o Hy. apply lookup_app_l_Some, Hy.
  - eapply chain_view_intro.
    + apply chain_list_Some. rewrite lookup_app_r by lia.
      replace (S (S (S (length h))) - length h) with 3 by lia. reflexivity.
    + apply heap_list_Some. rewrite lookup_app_r by lia.
      replace (S (S (length h)) - length h) with 2 by lia. reflexivity.
    + cbn. erewrite heap_block_at.
      * rewrite with_data_view. reflexivity.
      * rewrite lookup_app_r by lia.
        replace (S (length h) - length h) with 1 by lia. reflexivity.
      * cbn [data with_data]. rewrite lookup_app_r by lia.
        rewrite Nat.sub_diag. reflexivity.
Qed.

(** What a call of [insert_block] that returns does to the heap: one block
    object more, which refers to the dictionary passed, and its address
    added to the list of the chain. *)
Lemma insert_block_run_object (h : heap) (c l x : loc) (ls : list loc)
    (pb : Block) (d : loc) (j : json) (now : string) :
  chain_list h c = Some l -> heap_list h l = Some ls ->
  last ls = Some x -> heap_object h x = Some pb -> heap_dict h d = Some j ->
  insert_block c d now h
  = (Return (length h),
     <[l := OList (ls ++ [length h])]>
       (h ++ [OBlock (with_data
                        (Block_view_init (Z.of_nat (length ls)) now j (hash pb))
                        d)])).
Proof.
  intros Hc Hl Hx Hp Hd. unfold insert_block, length_, latest_block.
  rewrite (bind_Return _ _ _ _ _ (get_blocks_run _ _ _ Hc)).
  rewrite (bind_Return _ _ h h (length ls)).
  2:{ rewrite (bind_Return _ _ _ _ _ (get_blocks_run _ _ _ Hc)).
      apply list_len_run, Hl. }
  rewrite (bind_Return _ _ h h x).
  2:{ rewrite (bind_Return _ _ _ _ _ (get_blocks_run _ _ _ Hc)).
      eapply list_getitem_run; [exact Hl|]. rewrite py_index_last. exact Hx. }
  rewrite (bind_Return _ _ _ _ _ (read_object_run _ _ _ Hp)).
  rewrite (bind_Return _ _ _ _ _ (Block_init_run _ _ _ _ _ _ Hd)).
  set (b := with_data _ d).
  unfold bind at 1. unfold alloc.
  assert (heap_list (h ++ [OBlock b]) l = Some ls) as Hl1
    by (eapply heap_ext_list; [apply heap_ext_alloc|exact Hl]).
  assert (chain_list (h ++ [OBlock b]) c = Some l) as Hc1
    by (eapply heap_ext_chain; [apply heap_ext_alloc|exact Hc]).
  unfold bind at 1. unfold list_append.
  rewrite (proj1 (heap_list_Some _ _ _) Hl1). cbv beta iota.
  erewrite bind_Return.
  2:{ apply get_blocks_run. rewrite (chain_list_insert_list _ _ _ ls) by exact Hl1.
      exact Hc1. }
  eapply list_getitem_run.
  - eapply heap_list_insert_eq, Hl1.
  - rewrite py_index_last. apply last_snoc.
Qed.

Lemma insert_block_run (h : heap) (c l x : loc) (ls : list loc) (p : BlockView)
    (d : loc) (j : json) (now : string) :
  chain_list h c = Some l -> heap_list h l = Some ls ->
  last ls = Some x -> heap_block h x = Some p -> heap_dict h d = Some j ->
  insert_block c d now h
  = (Return (length h),
     <[l := OList (ls ++ [length h])]>
       (h ++ [OBlock (with_data
                        (Block_view_init (Z.of_nat (length ls)) now j (hash p))
                        d)])).
Proof.
  intros Hc Hl Hx Hp Hd.
  destruct (read_block_run _ _ _ Hp) as (pb & _ & Hpb & _ & Hpv).
  assert (hash p = hash pb) as -> by (rewrite Hpv; reflexivity).
  eapply insert_block_run_object; eauto.
Qed.

Lemma last_mapM_blocks (h : heap) (ls : list loc) (bs : list BlockView) (p : BlockView) :
  mapM (heap_block h) ls = Some bs -> last bs = Some p ->
  exists x, last ls = Some x /\ heap_block h x = Some p.
Proof.
  intros H%mapM_Some Hp. rewrite last_lookup in Hp.
  destruct (Forall2_lookup_r _ _ _ _ _ H Hp) as (x & Hx & Hb).
  exists x. split; [|exact Hb].
  rewrite last_lookup, (Forall2_length _ _ _ H). exact Hx.
Qed.

(** On a chain that has a last block, [insert_block] with a dictionary
    returns; the chain then has one block more, made from what the
    dictionary holds, the clock reading, the length of the chain and the
    hash of the block that was last. *)
Lemma insert_block_view (h : heap) (c : loc) (bs : list BlockView) (p : BlockView)
    (d : loc) (j : json) (now : string) :
  chain_view h c = Some bs -> last bs = Some p -> heap_dict h d = Some j ->
  exists h',
    insert_block c d now h = (Return (length h), h') /\
    chain_view h' c
    = Some (bs ++ [Block_view_init (Z.of_nat (length bs)) now j (hash p)]) /\
    (forall d' j', heap_dict h d' = Some j' -> heap_dict h' d' = Some j').
Proof.
  intros (l & ls & Hc & Hl & Hbs)%chain_view_inv Hp Hd.
  destruct (last_mapM_blocks _ _ _ _ Hbs Hp) as (x & Hx & Hxp).
  eexists. split; [eapply insert_block_run; eauto|].
  rewrite (mapM_length_eq _ _ _ Hbs).
  set (v := Block_view_init _ _ _ _). set (h1 := h ++ [OBlock (with_data v d)]).
  assert (heap_ext h h1) as Hext by apply heap_ext_alloc.
  assert (heap_list h1 l = Some ls) as Hl1 by (eapply heap_ext_list; eauto).
  split.
  - eapply chain_view_intro.
    + rewrite (chain_list_insert_list _ _ _ ls) by exact Hl1.
      eapply heap_ext_chain; eauto.
    + eapply heap_list_insert_eq, Hl1.
    + rewrite (mapM_heap_block_ext h1)
        by (intros y; eapply heap_block_insert_list, Hl1).
      apply mapM_Some, Forall2_app.
      * apply mapM_Some. eapply heap_ext_blocks; eauto.
      * constructor; [|constructor].
        rewrite <- (with_data_view v d). apply heap_block_at.
        -- unfold h1. rewrite lookup_app_r by lia. rewrite Nat.sub_diag.
           reflexivity.
        -- apply Hext, heap_dict_Some. exact Hd.
  - intros d' j' Hd'. rewrite (heap_dict_insert_list _ _ _ ls) by exact Hl1.
    eapply heap_ext_dict; eauto.
Qed.

(** ** Appending keeps a chain valid *)

Lemma generate_hash_Block_view_init (i : Z) (t : string) (d : json) (p : string) :
  generate_hash (Block_view_init i t d p) = hash (Block_view_init i t d p).
Proof. reflexivity. Qed.

Lemma violations_at_app (bs : list BlockView) (b : BlockView) (i : nat) :
  1 <= i < length bs ->
  violations_at (bs ++ [b]) i = violations_at bs i.
Proof.
  intros Hi. unfold violations_at.
  rewrite !lookup_app_l by lia. reflexivity.
Qed.

Lemma flat_map_ext_In {A B} (f g : A -> list B) (l : list A) :
  (forall x, In x l -> f x = g x) -> flat_map f l = flat_map g l.
Proof.
  intros Hfg. rewrite !flat_map_concat_map. f_equal.
  apply map_ext_in, Hfg.
Qed.

Lemma violations_spec_snoc (bs : list BlockView) (b : BlockView) :
  bs <> [] ->
  violations_spec (bs ++ [b])
  = violations_spec bs ++ violations_at (bs ++ [b]) (length bs).
Proof.
  intros Hne. unfold violations_spec, py_range. rewrite length_app. cbn [length].
  assert (length bs <> 0) by (destruct bs; [congruence|discriminate]).
  replace (length bs + 1 - 1) with (S (length bs - 1)) by lia.
  rewrite seq_S, flat_map_app. cbn [flat_map]. rewrite app_nil_r.
  replace (1 + (length bs - 1)) with (length bs) by lia. f_equal.
  apply flat_map_ext_In. intros i Hi%in_seq. apply violations_at_app. lia.
Qed.

(** The block that [insert_block] makes passes the four checks when the
    clock has moved on since the block before it. *)
Lemma violations_at_new_block (bs : list BlockView) (p : BlockView) (d : json)
    (now : string) :
  last bs = Some p -> str_lt (timestamp p) now = true ->
  violations_at (bs ++ [Block_view_init (Z.of_nat (length bs)) now d (hash p)])
    (length bs) = [].
Proof.
  intros Hp Hlt. unfold violations_at.
  assert (length bs <> 0) by (destruct bs; [discriminate|discriminate]).
  rewrite lookup_app_r by lia. rewrite Nat.sub_diag. cbn [lookup list_lookup].
  rewrite lookup_app_l by lia. rewrite last_lookup in Hp.
  replace (length bs - 1) with (Init.Nat.pred (length bs)) by lia. rewrite Hp.
  unfold all_checks. cbn [List.filter check_fails].
  rewrite generate_hash_Block_view_init. unfold Block_view_init.
  cbn [index hash previous_hash timestamp].
  rewrite Z.eqb_refl, !String.eqb_refl. unfold str_ge. rewrite Hlt. reflexivity.
Qed.

Lemma arg_payload_ext (h h' : heap) (a : payload_arg) (j : json) :
  (forall d' j', heap_dict h d' = Some j' -> heap_dict h' d' = Some j') ->
  arg_payload h a = Some j -> arg_payload h' a = Some j.
Proof. intros Hkeep. destruct a as [d|j0]; cbn [arg_payload]; auto. Qed.

Lemma arg_payloads_ext (h h' : heap) (args : list payload_arg)
    (payloads : list json) :
  (forall d' j', heap_dict h d' = Some j' -> heap_dict h' d' = Some j') ->
  mapM (arg_payload h) args = Some payloads ->
  mapM (arg_payload h') args = Some payloads.
Proof.
  intros Hkeep H%mapM_Some. apply mapM_Some.
  eapply Forall2_impl; [exact H|]. intros a j. apply arg_payload_ext, Hkeep.
Qed.

Lemma pass_payload_run (h : heap) (a : payload_arg) (j : json) :
  arg_payload h a = Some j ->
  exists d h0,
    pass_payload a h = (Return d, h0) /\ heap_ext h h0 /\
    heap_dict h0 d = Some j.
Proof.
  destruct a as [d|j0]; cbn [arg_payload pass_payload].
  - intros Hd. exists d, h. split; [reflexivity|].
    split; [apply heap_ext_refl|exact Hd].
  - intros [= ->]. exists (length h), (h ++ [ODict j]).
    split; [reflexivity|]. split; [apply heap_ext_alloc|].
    apply heap_dict_Some. rewrite lookup_app_r by lia.
    rewrite Nat.sub_diag. reflexivity.
Qed.

(** One call of a sequence: the dictionary is passed, the block made. *)
Lemma insert_blocks_step (h : heap) (c : loc) (bs : list BlockView)
    (p : BlockView) (a : payload_arg) (j : json) (now : string) :
  chain_view h c = Some bs -> last bs = Some p -> arg_payload h a = Some j ->
  exists d h0 h1,
    pass_payload a h = (Return d, h0) /\
    insert_block c d now h0 = (Return (length h0), h1) /\
    chain_view h1 c
    = Some (bs ++ [Block_view_init (Z.of_nat (length bs)) now j (hash p)]) /\
    (forall d' j', heap_dict h d' = Some j' -> heap_dict h1 d' = Some j').
Proof.
  intros Hv Hp Ha.
  destruct (pass_payload_run h a j Ha) as (d & h0 & Hpass & Hext & Hd).
  assert (chain_view h0 c = Some bs) as Hv0
    by (eapply heap_ext_chain_view; eauto).
  destruct (insert_block_view h0 c bs p d j now Hv0 Hp Hd)
    as (h1 & Hrun & Hv1 & Hkeep).
  exists d, h0, h1. split; [exact Hpass|]. split; [exact Hrun|].
  split; [exact Hv1|]. intros d' j' Hd'. eapply Hkeep, heap_ext_dict; eauto.
Qed.




(** ** [copy.deepcopy] and [fork] *)

Lemma lookup_snoc_at {A} (l : list A) (a : A) : (l ++ [a]) !! length l = Some a.
Proof. rewrite lookup_app_r by lia. rewrite Nat.sub_diag. reflexivity. Qed.

Lemma copy_of_ext (n : nat) (h h' : heap) (x y : loc) :
  heap_ext h h' -> copy_of n h x y -> copy_of n h' x y.
Proof.
  intros Hext [Hy [(b & d' & j & Hx & Hyb & Hd' & Hj & Hj')|(j & Hx & Hyj)]];
    (split; [exact Hy|]); [left|right].
  - exists b, d', j. auto 10.
  - exists j. auto.
Qed.

Lemma memo_ok_ext (n : nat) (h h' : heap) (memo : list (loc * loc)) :
  heap_ext h h' -> memo_ok n h memo -> memo_ok n h' memo.
Proof. intros Hext Hmemo x y Hget. eapply copy_of_ext; eauto. Qed.

Lemma data_from_ext (n : nat) (h h' : heap) (y : loc) :
  heap_ext h h' -> data_from n h y -> data_from n h' y.
Proof.
  intros Hext (b & Hb & Hn). exists b. split; [|exact Hn].
  eapply heap_ext_object; eauto.
Qed.

Lemma deepcopy_dict_run (n : nat) (memo : list (loc * loc)) (h : heap)
    (d : loc) (j : json) :
  heap_dict h d = Some j -> n <= length h -> memo_ok n h memo ->
  exists memo' y h',
    deepcopy_dict memo d h = (Return (memo', y), h') /\ heap_ext h h' /\
    heap_dict h' y = Some j /\ n <= y /\ memo_ok n h' memo'.
Proof.
  intros Hd Hn Hmemo. unfold deepcopy_dict.
  destruct (memo_get memo d) as [y|] eqn:Hget.
  - exists memo, y, h. split; [reflexivity|]. split; [apply heap_ext_refl|].
    destruct (Hmemo d y Hget)
      as [Hy [(b & d' & j' & Hx & _)|(j' & Hx & Hyj)]].
    + apply heap_dict_Some in Hd. congruence.
    + apply heap_dict_Some in Hd.
      assert (j' = j) as -> by congruence.
      split; [apply heap_dict_Some, Hyj|]. auto.
  - rewrite (bind_Return _ _ _ _ _ (read_dict_run _ _ _ Hd)).
    unfold bind, alloc, ret.
    assert (heap_ext h (h ++ [ODict j])) as Hext by apply heap_ext_alloc.
    exists ((d, length h) :: memo), (length h), (h ++ [ODict j]).
    split; [reflexivity|]. split; [exact Hext|].
    split; [apply heap_dict_Some, lookup_snoc_at|]. split; [exact Hn|].
    intros x0 y0. cbn [memo_get]. destruct (Nat.eqb_spec d x0) as [<-|Hne].
    + intros [= <-]. split; [exact Hn|]. right. exists j.
      split; [apply Hext, heap_dict_Some, Hd | apply lookup_snoc_at].
    + intros Hget0. eapply copy_of_ext; eauto.
Qed.

Lemma deepcopy_block_run (n : nat) (memo : list (loc * loc)) (h : heap)
    (x : loc) (v : BlockView) :
  heap_block h x = Some v -> n <= length h -> memo_ok n h memo ->
  exists memo' y h',
    deepcopy_block memo x h = (Return (memo', y), h') /\ heap_ext h h' /\
    heap_block h' y = Some v /\ n <= y /\ data_from n h' y /\
    memo_ok n h' memo'.
Proof.
  intros Hx Hn Hmemo. unfold deepcopy_block.
  destruct (proj1 (heap_block_Some _ _ _) Hx) as (b & j & Hb & Hj & ->).
  destruct (memo_get memo x) as [y|] eqn:Hget.
  - exists memo, y, h. split; [reflexivity|]. split; [apply heap_ext_refl|].
    destruct (Hmemo x y Hget)
      as [Hy [(b' & d' & j' & Hxb & Hyb & Hd' & Hjb & Hj')|(j' & Hxj & _)]];
      [|congruence].
    assert (b' = b) as -> by congruence.
    assert (j' = j) as -> by congruence.
    split; [exact (heap_block_at h y (with_data b d') j Hyb Hj')|].
    split; [exact Hy|]. split; [|exact Hmemo].
    exists (with_data b d'). split; [apply heap_object_Some, Hyb|exact Hd'].
  - rewrite (bind_Return _ _ h h b)
      by (unfold read_block; rewrite Hb; reflexivity).
    destruct (deepcopy_dict_run n memo h (data b) j) as
      (memo1 & yd & h1 & Hrun & Hext1 & Hyd & Hnyd & Hmemo1);
      [apply heap_dict_Some, Hj|exact Hn|exact Hmemo|].
    rewrite (bind_Return _ _ _ _ _ Hrun). cbn [fst snd].
    unfold bind, alloc, ret.
    set (h2 := h1 ++ [OBlock (with_data b yd)]).
    assert (heap_ext h1 h2) as Hext2 by apply heap_ext_alloc.
    assert (heap_ext h h2) as Hext by (eapply heap_ext_trans; eauto).
    pose proof (heap_ext_length _ _ Hext1) as Hlen.
    assert (h2 !! length h1 = Some (OBlock (with_data b yd))) as Hnew
      by apply lookup_snoc_at.
    assert (h2 !! yd = Some (ODict j)) as Hyd2
      by (apply Hext2, heap_dict_Some, Hyd).
    exists ((x, length h1) :: memo1), (length h1), h2.
    split; [reflexivity|]. split; [exact Hext|].
    split; [exact (heap_block_at h2 (length h1) (with_data b yd) j Hnew Hyd2)|].
    split; [lia|]. split.
    { exists (with_data b yd). split; [apply heap_object_Some, Hnew|exact Hnyd]. }
    intros x0 y0. cbn [memo_get]. destruct (Nat.eqb_spec x x0) as [<-|Hne].
    + intros [= <-]. split; [lia|]. left. exists b, yd, j.
      split; [apply Hext, Hb|]. split; [exact Hnew|]. split; [exact Hnyd|].
      split; [apply Hext, Hj|exact Hyd2].
    + intros Hget0. apply (copy_of_ext n h1 h2); [exact Hext2|].
      apply Hmemo1, Hget0.
Qed.

Lemma deepcopy_items_run (n : nat) (ls : list loc) :
  forall (memo : list (loc * loc)) (h : heap) (bs : list BlockView),
    mapM (heap_block h) ls = Some bs -> n <= length h -> memo_ok n h memo ->
    exists memo' ls' h',
      deepcopy_items memo ls h = (Return (memo', ls'), h') /\ heap_ext h h' /\
      mapM (heap_block h') ls' = Some bs /\
      List.Forall (fun y => n <= y) ls' /\
      List.Forall (data_from n h') ls' /\
      memo_ok n h' memo'.
Proof.
  induction ls as [|x ls IH]; intros memo h bs Hbs Hn Hmemo.
  - apply mapM_Some in Hbs. inversion Hbs; subst.
    exists memo, [], h. split; [reflexivity|]. split; [apply heap_ext_refl|].
    split; [reflexivity|]. auto.
  - apply mapM_Some in Hbs. inversion Hbs as [|? b ? bs' Hx Hrest]; subst.
    apply mapM_Some in Hrest. cbn [deepcopy_items].
    destruct (deepcopy_block_run n memo h x b Hx Hn Hmemo)
      as (memo1 & y & h1 & Hrun1 & Hext1 & Hy & Hny & Hdy & Hmemo1).
    rewrite (bind_Return _ _ _ _ _ Hrun1). cbn [fst snd].
    pose proof (heap_ext_length _ _ Hext1) as Hlen.
    destruct (IH memo1 h1 bs') as
      (memo2 & ys & h2 & Hrun2 & Hext2 & Hys & Hfresh & Hdata & Hmemo2);
      [eapply heap_ext_blocks; eauto|lia|exact Hmemo1|].
    rewrite (bind_Return _ _ _ _ _ Hrun2). cbn [fst snd].
    exists memo2, (y :: ys), h2. split; [reflexivity|].
    split; [eapply heap_ext_trans; eauto|]. split.
    { apply mapM_Some. constructor; [|apply mapM_Some, Hys].
      eapply heap_ext_block; eauto. }
    split; [constructor; assumption|]. split; [|exact Hmemo2].
    constructor; [|exact Hdata]. eapply data_from_ext; eauto.
Qed.

Lemma Forall_data_from_ext (n : nat) (h h' : heap) (ls : list loc) :
  heap_ext h h' -> List.Forall (data_from n h) ls ->
  List.Forall (data_from n h') ls.
Proof.
  intros Hext H. eapply List.Forall_impl; [|exact H].
  intros y Hy. eapply data_from_ext; eauto.
Qed.

Lemma deepcopy_run (h : heap) (c : loc) (bs : list BlockView) :
  chain_view h c = Some bs ->
  exists c' h',
    deepcopy c h = (Return c', h') /\ heap_ext h h' /\ fresh_chain h h' c' bs.
Proof.
  intros (l & ls & Hc & Hl & Hbs)%chain_view_inv. unfold deepcopy.
  rewrite (bind_Return _ _ _ _ _ (get_blocks_run _ _ _ Hc)).
  rewrite (bind_Return _ _ _ _ _ (read_list_run _ _ _ Hl)).
  destruct (deepcopy_items_run (length h) ls [] h bs Hbs (Nat.le_refl _))
    as (memo' & ls' & h1 & Hrun & Hext & Hbs' & Hfresh & Hdata & _).
  { intros x y. discriminate. }
  rewrite (bind_Return _ _ _ _ _ Hrun). cbn [snd]. unfold bind, alloc.
  pose proof (heap_ext_length _ _ Hext) as Hlen.
  set (h2 := h1 ++ [OList ls']). set (h3 := h2 ++ [OChain (length h1)]).
  assert (heap_ext h1 h2) as H12 by apply heap_ext_alloc.
  assert (heap_ext h2 h3) as H23 by apply heap_ext_alloc.
  assert (heap_ext h1 h3) as H13 by (eapply heap_ext_trans; eauto).
  exists (length h2), h3. split; [reflexivity|].
  split; [eapply heap_ext_trans; eauto|].
  exists (length h1), ls'. unfold h2 at 1. rewrite length_app. cbn [length].
  repeat split; try lia; try assumption.
  - eapply Forall_data_from_ext; eauto.
  - apply chain_list_Some. apply lookup_snoc_at.
  - apply heap_list_Some. apply H23. apply lookup_snoc_at.
  - eapply heap_ext_blocks; eauto.
Qed.

Lemma list_slice_upto_run (h : heap) (l : loc) (ls : list loc) (upto : Z) :
  heap_list h l = Some ls ->
  list_slice_upto l upto h
  = (Return (length h), h ++ [OList (py_slice_upto ls upto)]).
Proof.
  intros Hl. unfold list_slice_upto.
  rewrite (bind_Return _ _ _ _ _ (read_list_run _ _ _ Hl)). reflexivity.
Qed.

Lemma set_blocks_run (h : heap) (c old new : loc) :
  chain_list h c = Some old ->
  set_blocks c new h = (Return tt, <[c := OChain new]> h).
Proof.
  intros Hc%chain_list_Some. unfold set_blocks. rewrite Hc. reflexivity.
Qed.

Lemma fork_blocks_Forall2 {A B} (R : A -> B -> Prop) (xs : list A)
    (ys : list B) (upto : Z) :
  Forall2 R xs ys -> Forall2 R (fork_blocks xs upto) (fork_blocks ys upto).
Proof.
  intros H. unfold fork_blocks. destruct (upto =? 0)%Z; [exact H|].
  apply py_slice_upto_Forall2, H.
Qed.

Lemma py_slice_upto_In {A} (items : list A) (upto : Z) (x : A) :
  In x (py_slice_upto items upto) -> In x items.
Proof.
  unfold py_slice_upto. intros H.
  rewrite <- (firstn_skipn
    (Z.to_nat (if (upto <? 0)%Z
               then Z.max 0 (upto + Z.of_nat (length items))
               else Z.min upto (Z.of_nat (length items)))) items).
  apply in_or_app. left. exact H.
Qed.

(** [fork] returns on every chain: the result is a chain of new objects,
    with the blocks [fork_blocks] keeps, and every object the heap had is
    as it was. *)
Lemma fork_run (h : heap) (c : loc) (bs : list BlockView) (upto : Z) :
  chain_view h c = Some bs ->
  exists c' h',
    fork c upto h = (Return c', h') /\ heap_ext h h' /\
    fresh_chain h h' c' (fork_blocks bs upto).
Proof.
  intros Hv. destruct (deepcopy_run h c bs Hv)
    as (c' & h1 & Hrun & Hext & l' & ls' & Hc' & Hl' & Hfresh & Hdata & Hcl & Hll & Hbs).
  unfold fork. rewrite (bind_Return _ _ _ _ _ Hrun).
  unfold fork_blocks. destruct (upto =? 0)%Z; cbn [negb].
  - exists c', h1. split; [reflexivity|]. split; [exact Hext|].
    exists l', ls'. auto 10.
  - rewrite (bind_Return _ _ h1
               (<[c' := OChain (length h1)]>
                  (h1 ++ [OList (py_slice_upto ls' upto)])) tt).
    2:{ rewrite (bind_Return _ _ _ _ _ (get_blocks_run _ _ _ Hcl)).
        rewrite (bind_Return _ _ _ _ _ (list_slice_upto_run _ _ _ upto Hll)).
        apply (set_blocks_run _ _ l').
        eapply heap_ext_chain; [apply heap_ext_alloc|exact Hcl]. }
    set (h2 := h1 ++ [OList (py_slice_upto ls' upto)]).
    assert (heap_ext h1 h2) as H12 by apply heap_ext_alloc.
    assert (chain_list h2 c' = Some l') as Hcl2 by (eapply heap_ext_chain; eauto).
    pose proof (heap_ext_length _ _ Hext) as Hlen.
    eexists _, _. split; [reflexivity|]. split.
    { apply heap_ext_insert_fresh; [|exact Hc']. eapply heap_ext_trans; eauto. }
    exists (length h1), (py_slice_upto ls' upto).
    repeat split; try lia.
    + apply List.Forall_forall. intros y Hy%py_slice_upto_In.
      eapply List.Forall_forall in Hfresh; eauto.
    + apply List.Forall_forall. intros y Hy%py_slice_upto_In.
      eapply List.Forall_forall in Hdata; [|exact Hy].
      destruct (data_from_ext _ _ _ _ H12 Hdata) as (b & Hb & Hn).
      exists b. split; [|exact Hn].
      rewrite (heap_object_insert_chain _ _ _ l') by exact Hcl2. exact Hb.
    + eapply chain_list_insert_eq, Hcl2.
    + rewrite (heap_list_insert_chain _ _ _ l') by exact Hcl2.
      apply heap_list_Some, lookup_snoc_at.
    + rewrite (mapM_heap_block_ext h2)
        by (intros y; eapply heap_block_insert_chain, Hcl2).
      apply mapM_Some, py_slice_upto_Forall2, mapM_Some.
      eapply heap_ext_blocks; eauto.
Qed.

Lemma fresh_chain_view (h h' : heap) (c' : loc) (bs' : list BlockView) :
  fresh_chain h h' c' bs' -> chain_view h' c' = Some bs'.
Proof.
  intros (l' & ls' & _ & _ & _ & _ & Hc & Hl & Hbs).
  eapply chain_view_intro; eauto.
Qed.

Lemma fresh_chain_not_old (h h' : heap) (c c' : loc) (bs bs' : list BlockView) :
  chain_view h c = Some bs -> fresh_chain h h' c' bs' -> c' <> c.
Proof.
  intros (l & ls & Hc%chain_list_Some & _)%chain_view_inv (l' & ls' & Hc' & _).
  apply lookup_lt_Some in Hc. lia.
Qed.

Lemma fork_blocks_nat {A} (items : list A) (k : Z) :
  (1 <= k)%Z -> fork_blocks items k = firstn (Z.to_nat k) items.
Proof.
  intros Hk. unfold fork_blocks. destruct (Z.eqb_spec k 0); [lia|].
  rewrite <- (Z2Nat.id k) at 1 by lia. apply py_slice_upto_nat.
Qed.

(** C6: for [1 <= k < c1.length], [c1.fork(k)] returns a new chain of
    length [k] whose blocks are, by value, [c1.blocks[0:k]]; [c1] keeps
    its blocks. *)
Theorem fork_upto_is_prefix (h : heap) (c1 : loc) (blocks : list BlockView) (k : Z) :
  chain_view h c1 = Some blocks ->
  (1 <= k < Z.of_nat (length blocks))%Z ->
  exists c2 h',
    fork c1 k h = (Return c2, h') /\ c2 <> c1 /\
    chain_view h' c2 = Some (firstn (Z.to_nat k) blocks) /\
    length_ c2 h' = (Return (Z.to_nat k), h') /\
    chain_view h' c1 = Some blocks.
Proof.
  intros Hv Hk. destruct (fork_run h c1 blocks k Hv) as (c2 & h' & Hrun & Hext & Hfresh).
  rewrite fork_blocks_nat in Hfresh by lia.
  pose proof (fresh_chain_view _ _ _ _ Hfresh) as Hv2.
  exists c2, h'. split; [exact Hrun|].
  split; [eapply fresh_chain_not_old; eauto|]. split; [exact Hv2|]. split.
  - rewrite (length_run _ _ _ Hv2), length_firstn. do 2 f_equal. lia.
  - eapply heap_ext_chain_view; eauto.
Qed.

(** C7: [fork(0)] copies the whole chain: the new chain has the length of
    the original and, by value, all its blocks. *)
Theorem fork_zero_copies_all (h : heap) (c1 : loc) (blocks : list BlockView) :
  chain_view h c1 = Some blocks ->
  exists c2 h',
    fork c1 0 h = (Return c2, h') /\ c2 <> c1 /\
    chain_view h' c2 = Some blocks /\
    length_ c2 h' = (Return (length blocks), h').
Proof.
  intros Hv. destruct (fork_run h c1 blocks 0 Hv) as (c2 & h' & Hrun & Hext & Hfresh).
  pose proof (fresh_chain_view _ _ _ _ Hfresh) as Hv2.
  exists c2, h'. split; [exact Hrun|].
  split; [eapply fresh_chain_not_old; eauto|]. split; [exact Hv2|].
  apply (length_run _ _ _ Hv2).
Qed.

(** What [fork()] gives on every chain: all the blocks but the last. *)
Lemma fork_default_view (h : heap) (c1 : loc) (blocks : list BlockView) :
  chain_view h c1 = Some blocks ->
  exists c2 h',
    fork_default c1 h = (Return c2, h') /\
    chain_view h' c2 = Some (removelast blocks).
Proof.
  intros Hv. destruct (fork_run h c1 blocks (-1) Hv) as (c2 & h' & Hrun & Hext & Hfresh).
  exists c2, h'. split; [exact Hrun|].
  rewrite <- py_slice_upto_minus_one. apply (fresh_chain_view _ _ _ _ Hfresh).
Qed.

(** C2: [fork()] on a chain just created.  The chain has its genesis
    block; the fork has no block at all, where a copy of the whole chain
    would have one. *)
Theorem fork_default_of_new_chain_is_empty (h : heap) (now : string) :
  exists c1 h1 c2 h2,
    Blockchain_init now h = (Return c1, h1) /\
    length_ c1 h1 = (Return 1, h1) /\
    fork_default c1 h1 = (Return c2, h2) /\
    chain_view h2 c2 = Some [] /\
    length_ c2 h2 = (Return 0, h2).
Proof.
  destruct (Blockchain_init_view h now) as (c1 & h1 & Hinit & _ & Hv1).
  destruct (fork_default_view h1 c1 _ Hv1) as (c2 & h2 & Hrun & Hv2).
  exists c1, h1, c2, h2. split; [exact Hinit|].
  split; [apply (length_run _ _ _ Hv1)|]. split; [exact Hrun|].
  split; [exact Hv2|]. apply (length_run _ _ _ Hv2).
Qed.

(** ** A fork and its parent share no object *)

Lemma get_blocks_fail (h : heap) (c : loc) :
  chain_list h c = None -> get_blocks c h = (Raise AttributeError, h).
Proof.
  unfold chain_list, get_blocks.
  destruct (h !! c) as [[b|its|l|j0]|]; congruence.
Qed.

Lemma read_list_fail (h : heap) (l : loc) :
  heap_list h l = None -> read_list l h = (Raise AttributeError, h).
Proof.
  unfold heap_list, read_list.
  destruct (h !! l) as [[b|its|l'|j0]|]; congruence.
Qed.

Lemma read_block_fail (h : heap) (x : loc) :
  heap_object h x = None -> read_block x h = (Raise AttributeError, h).
Proof.
  unfold heap_object, read_block.
  destruct (h !! x) as [[b|its|l'|j0]|]; congruence.
Qed.

(** A call of [insert_block] either raises and leaves the heap as it was,
    or adds one block object and writes the list object of its chain. *)
Lemma insert_block_cases (h h' : heap) (c : loc) (d : loc) (now : string)
    (r : outcome loc) :
  insert_block c d now h = (r, h') ->
  h' = h \/
  exists l ls b,
    chain_list h c = Some l /\ heap_list h l = Some ls /\
    h' = <[l := OList (ls ++ [length h])]> (h ++ [OBlock b]).
Proof.
  intros Hrun.
  destruct (chain_list h c) as [l|] eqn:Hc.
  2:{ left. unfold insert_block in Hrun.
      rewrite (bind_Raise _ _ _ _ _ (get_blocks_fail _ _ Hc)) in Hrun.
      congruence. }
  destruct (heap_list h l) as [ls|] eqn:Hl.
  2:{ left. unfold insert_block, length_, list_len in Hrun.
      rewrite (bind_Return _ _ _ _ _ (get_blocks_run _ _ _ Hc)) in Hrun.
      rewrite (bind_Raise _ _ h h AttributeError) in Hrun; [congruence|].
      rewrite (bind_Return _ _ _ _ _ (get_blocks_run _ _ _ Hc)).
      apply bind_Raise, read_list_fail, Hl. }
  destruct (last ls) as [x|] eqn:Hx.
  2:{ left. unfold insert_block, length_, latest_block in Hrun.
      rewrite (bind_Return _ _ _ _ _ (get_blocks_run _ _ _ Hc)) in Hrun.
      rewrite (bind_Return _ _ h h (length ls)) in Hrun.
      2:{ rewrite (bind_Return _ _ _ _ _ (get_blocks_run _ _ _ Hc)).
          apply list_len_run, Hl. }
      rewrite (bind_Raise _ _ h h IndexError) in Hrun; [congruence|].
      rewrite (bind_Return _ _ _ _ _ (get_blocks_run _ _ _ Hc)).
      eapply list_getitem_out; [exact Hl|]. rewrite py_index_last. exact Hx. }
  destruct (heap_object h x) as [p|] eqn:Hp.
  2:{ left. unfold insert_block, length_, latest_block in Hrun.
      rewrite (bind_Return _ _ _ _ _ (get_blocks_run _ _ _ Hc)) in Hrun.
      rewrite (bind_Return _ _ h h (length ls)) in Hrun.
      2:{ rewrite (bind_Return _ _ _ _ _ (get_blocks_run _ _ _ Hc)).
          apply list_len_run, Hl. }
      rewrite (bind_Return _ _ h h x) in Hrun.
      2:{ rewrite (bind_Return _ _ _ _ _ (get_blocks_run _ _ _ Hc)).
          eapply list_getitem_run; [exact Hl|]. rewrite py_index_last. exact Hx. }
      rewrite (bind_Raise _ _ _ _ _ (read_block_fail _ _ Hp)) in Hrun.
      congruence. }
  destruct (heap_dict h d) as [j|] eqn:Hd.
  2:{ left. unfold insert_block, length_, latest_block in Hrun.
      rewrite (bind_Return _ _ _ _ _ (get_blocks_run _ _ _ Hc)) in Hrun.
      rewrite (bind_Return _ _ h h (length ls)) in Hrun.
      2:{ rewrite (bind_Return _ _ _ _ _ (get_blocks_run _ _ _ Hc)).
          apply list_len_run, Hl. }
      rewrite (bind_Return _ _ h h x) in Hrun.
      2:{ rewrite (bind_Return _ _ _ _ _ (get_blocks_run _ _ _ Hc)).
          eapply list_getitem_run; [exact Hl|]. rewrite py_index_last. exact Hx. }
      rewrite (bind_Return _ _ _ _ _ (read_object_run _ _ _ Hp)) in Hrun.
      rewrite (bind_Raise _ _ _ _ _ (Block_init_fail _ _ _ _ _ Hd)) in Hrun.
      congruence. }
  right. rewrite (insert_block_run_object h c l x ls p d j now Hc Hl Hx Hp Hd) in Hrun.
  exists l, ls,
    (with_data (Block_view_init (Z.of_nat (length ls)) now j (hash p)) d).
  repeat split; congruence.
Qed.

Lemma chain_locs_inv (h : heap) (c : loc) (ls : list loc) :
  chain_locs h c = Some ls ->
  exists l, chain_list h c = Some l /\ heap_list h l = Some ls.
Proof.
  unfold chain_locs. destruct (chain_list h c) as [l|]; [|discriminate].
  intros Hl. exists l. auto.
Qed.

Lemma chain_locs_intro (h : heap) (c l : loc) (ls : list loc) :
  chain_list h c = Some l -> heap_list h l = Some ls -> chain_locs h c = Some ls.
Proof. intros Hc Hl. unfold chain_locs. rewrite Hc. exact Hl. Qed.

(** [insert_block] on a chain changes nothing of a chain that has another
    list object. *)
Lemma insert_block_frame (h h' : heap) (c c' : loc) (d : loc) (now : string)
    (r : outcome loc) (ls' : list loc) (bs' : list BlockView) :
  insert_block c d now h = (r, h') ->
  (forall l, chain_list h c = Some l -> chain_list h c' <> Some l) ->
  chain_locs h c' = Some ls' -> chain_view h c' = Some bs' ->
  chain_locs h' c' = Some ls' /\ chain_view h' c' = Some bs'.
Proof.
  intros Hrun Hne Hlocs Hview.
  destruct (insert_block_cases _ _ _ _ _ _ Hrun)
    as [->|(l & ls & b & Hc & Hl & ->)]; [auto|].
  set (h1 := h ++ [OBlock b]).
  assert (heap_ext h h1) as Hext by apply heap_ext_alloc.
  assert (heap_list h1 l = Some ls) as Hl1 by (eapply heap_ext_list; eauto).
  destruct (chain_locs_inv _ _ _ Hlocs) as (l' & Hc' & Hl').
  assert (l <> l') as Hll by (intros ->; eapply Hne; eauto).
  destruct (chain_view_inv _ _ _ Hview) as (l'' & ls'' & Hc'' & Hl'' & Hbs).
  assert (l'' = l') as -> by congruence.
  assert (ls'' = ls') as -> by congruence.
  assert (chain_list (<[l := OList (ls ++ [length h])]> h1) c' = Some l') as Hc1.
  { rewrite (chain_list_insert_list _ _ _ ls) by exact Hl1.
    eapply heap_ext_chain; eauto. }
  assert (heap_list (<[l := OList (ls ++ [length h])]> h1) l' = Some ls') as Hl1'.
  { rewrite heap_list_insert_ne by exact Hll. eapply heap_ext_list; eauto. }
  split; [eapply chain_locs_intro; eauto|].
  eapply chain_view_intro; [exact Hc1|exact Hl1'|].
  rewrite (mapM_heap_block_ext h1)
    by (intros y; eapply heap_block_insert_list, Hl1).
  eapply heap_ext_blocks; eauto.
Qed.

Lemma mapM_blocks_old (h : heap) (ls : list loc) (bs : list BlockView) :
  mapM (heap_block h) ls = Some bs -> List.Forall (fun x => x < length h) ls.
Proof.
  intros H%mapM_Some. induction H as [|x b ls bs Hx _ IH]; constructor; auto.
  apply heap_block_Some in Hx. destruct Hx as (b0 & j & Hx & _).
  eapply lookup_lt_Some, Hx.
Qed.

Lemma mapM_dicts_old (h : heap) (ls : list loc) (bs : list BlockView) :
  mapM (heap_block h) ls = Some bs ->
  exists ds, mapM (fun x => data <$> heap_object h x) ls = Some ds /\
             List.Forall (fun d => d < length h) ds.
Proof.
  intros H%mapM_Some. induction H as [|x b ls bs Hx _ (ds & Hds & Hold)].
  - exists []. split; [reflexivity|constructor].
  - apply heap_block_Some in Hx. destruct Hx as (b0 & j & Hx & Hj & _).
    exists (data b0 :: ds). split.
    + apply mapM_Some. constructor; [|apply mapM_Some, Hds].
      apply heap_object_Some in Hx. rewrite Hx. reflexivity.
    + constructor; [eapply lookup_lt_Some, Hj|exact Hold].
Qed.

Lemma mapM_dicts_new (n : nat) (h : heap) (ls : list loc) :
  List.Forall (data_from n h) ls ->
  exists ds, mapM (fun x => data <$> heap_object h x) ls = Some ds /\
             List.Forall (fun d => n <= d) ds.
Proof.
  induction 1 as [|x ls (b & Hb & Hn) _ (ds & Hds & Hnew)].
  - exists []. split; [reflexivity|constructor].
  - exists (data b :: ds). split; [|constructor; assumption].
    apply mapM_Some. constructor; [|apply mapM_Some, Hds].
    rewrite Hb. reflexivity.
Qed.

Lemma mapM_dicts_ext (h h' : heap) (ls ds : list loc) :
  heap_ext h h' ->
  mapM (fun x => data <$> heap_object h x) ls = Some ds ->
  mapM (fun x => data <$> heap_object h' x) ls = Some ds.
Proof.
  intros Hext H%mapM_Some. apply mapM_Some.
  induction H as [|x d ls ds Hx _ IH]; constructor; [|exact IH].
  destruct (heap_object h x) as [b|] eqn:Hb; [|discriminate].
  rewrite (heap_ext_object _ _ _ _ Hext Hb). exact Hx.
Qed.

(** C9: after [c2 = c1.fork(upto)], for the default [upto] and for any
    other, the two chains have different chain objects, different list
    objects and no block object in common.  A call of [insert_block] on
    [c2], whether it returns or raises, leaves the length of [c1], its
    blocks and so each of their hashes as they were; and a call on [c1]
    leaves those of [c2] as they were.  The blocks of the two chains refer
    to different dictionaries as well. *)
Theorem fork_shares_nothing (h h1 : heap) (c1 c2 : loc) (blocks1 : list BlockView)
    (upto : Z) :
  chain_view h c1 = Some blocks1 ->
  fork c1 upto h = (Return c2, h1) ->
  exists (ls1 ls2 : list loc) (blocks2 : list BlockView) (ds1 ds2 : list loc),
    chain_locs h1 c1 = Some ls1 /\ chain_view h1 c1 = Some blocks1 /\
    chain_locs h1 c2 = Some ls2 /\ chain_view h1 c2 = Some blocks2 /\
    c2 <> c1 /\ chain_list h1 c2 <> chain_list h1 c1 /\
    (forall x, In x ls1 -> ~ In x ls2) /\
    untouched_by_insert h1 c2 c1 ls1 blocks1 /\
    untouched_by_insert h1 c1 c2 ls2 blocks2 /\
    chain_dicts h1 c1 = Some ds1 /\ chain_dicts h1 c2 = Some ds2 /\
    (forall d, In d ds1 -> ~ In d ds2).
Proof.
  intros Hv Hfork.
  destruct (fork_run h c1 blocks1 upto Hv) as (c2' & h1' & Hrun & Hext & Hfresh).
  rewrite Hfork in Hrun. injection Hrun as <- <-.
  pose proof (fresh_chain_not_old _ _ _ _ _ _ Hv Hfresh) as Hc21.
  pose proof (fresh_chain_view _ _ _ _ Hfresh) as Hv2.
  destruct Hfresh as (l2 & ls2 & Hc2 & Hl2 & Hnew & Hdata & Hcl2 & Hll2 & Hbs2).
  destruct (chain_view_inv _ _ _ Hv) as (l1 & ls1 & Hcl1 & Hll1 & Hbs1).
  pose proof (mapM_blocks_old _ _ _ Hbs1) as Hold.
  destruct (mapM_dicts_old _ _ _ Hbs1) as (ds1 & Hds1 & Hdold).
  destruct (mapM_dicts_new _ _ _ Hdata) as (ds2 & Hds2 & Hdnew).
  assert (l1 < length h) as Hl1
    by (apply heap_list_Some in Hll1; eapply lookup_lt_Some, Hll1).
  assert (chain_list h1 c1 = Some l1) as Hcl1' by (eapply heap_ext_chain; eauto).
  assert (chain_locs h1 c1 = Some ls1) as Hlocs1.
  { eapply chain_locs_intro; [exact Hcl1'|]. eapply heap_ext_list; eauto. }
  assert (chain_locs h1 c2 = Some ls2) as Hlocs2
    by (eapply chain_locs_intro; eauto).
  assert (chain_view h1 c1 = Some blocks1) as Hv1
    by (eapply heap_ext_chain_view; eauto).
  exists ls1, ls2, (fork_blocks blocks1 upto), ds1, ds2.
  split; [exact Hlocs1|]. split; [exact Hv1|]. split; [exact Hlocs2|].
  split; [exact Hv2|]. split; [exact Hc21|].
  split; [rewrite Hcl1', Hcl2; intros [= ->]; lia|]. split.
  { intros x Hx1 Hx2.
    eapply List.Forall_forall in Hold; [|exact Hx1].
    eapply List.Forall_forall in Hnew; [|exact Hx2]. lia. }
  split; [|split]; [intros d now r h2 Hins..|].
  - assert (forall l, chain_list h1 c2 = Some l -> chain_list h1 c1 <> Some l)
      as Hne by (intros l; rewrite Hcl2, Hcl1'; intros [= <-] [= ->]; lia).
    destruct (insert_block_frame h1 h2 c2 c1 d now r ls1 blocks1
                Hins Hne Hlocs1 Hv1) as [Hlocs Hview].
    split; [exact Hlocs|]. split; [exact Hview|]. apply length_run, Hview.
  - assert (forall l, chain_list h1 c1 = Some l -> chain_list h1 c2 <> Some l)
      as Hne by (intros l; rewrite Hcl2, Hcl1'; intros [= <-] [= ->]; lia).
    destruct (insert_block_frame h1 h2 c1 c2 d now r ls2 _
                Hins Hne Hlocs2 Hv2) as [Hlocs Hview].
    split; [exact Hlocs|]. split; [exact Hview|]. apply length_run, Hview.
  - unfold chain_dicts. rewrite Hlocs1, Hlocs2.
    split; [eapply mapM_dicts_ext; eauto|]. split; [exact Hds2|].
    intros d Hd1 Hd2.
    eapply List.Forall_forall in Hdold; [|exact Hd1].
    eapply List.Forall_forall in Hdnew; [|exact Hd2]. lia.
Qed.

(** ** [get_root] *)

Lemma length_run_locs (h : heap) (c : loc) (ls : list loc) :
  chain_locs h c = Some ls -> length_ c h = (Return (length ls), h).
Proof.
  intros (l & Hc & Hl)%chain_locs_inv. unfold length_.
  rewrite (bind_Return _ _ _ _ _ (get_blocks_run _ _ _ Hc)).
  apply list_len_run, Hl.
Qed.

Lemma chain_view_locs (h : heap) (c : loc) (bs : list BlockView) :
  chain_view h c = Some bs ->
  exists ls, chain_locs h c = Some ls /\ length ls = length bs.
Proof.
  intros (l & ls & Hc & Hl & Hbs)%chain_view_inv. exists ls.
  split; [eapply chain_locs_intro; eauto | eapply mapM_length_eq; eauto].
Qed.

(** The loop leaves at the first position of its range where the two
    chains hold different objects, with [self.fork] of that position; with
    no such position it ends with [self.fork(min_len)]. *)
Lemma get_root_loop_run (h : heap) (A B : loc) (lsA lsB : list loc) (m : nat) :
  chain_locs h A = Some lsA -> chain_locs h B = Some lsB ->
  m <= length lsA -> m <= length lsB ->
  forall n a, a + n = m ->
    exists k,
      get_root_loop A B (seq a n) m h = fork A (Z.of_nat k) h /\
      ((k = m /\ forall j, a <= j < m -> lsA !! j = lsB !! j) \/
       (a <= k < m /\ lsA !! k <> lsB !! k /\
        forall j, a <= j < k -> lsA !! j = lsB !! j)).
Proof.
  intros (lA & HcA & HlA)%chain_locs_inv (lB & HcB & HlB)%chain_locs_inv HmA HmB.
  induction n as [|n IH]; intros a Ham.
  - exists m. split; [reflexivity|]. left. split; [reflexivity|]. intros j Hj. lia.
  - destruct (lookup_lt_is_Some_2 lsA a) as [x Hx]; [lia|].
    destruct (lookup_lt_is_Some_2 lsB a) as [y Hy]; [lia|].
    cbn [seq get_root_loop].
    rewrite (bind_Return _ _ _ _ _ (get_blocks_run _ _ _ HcA)).
    rewrite (bind_Return _ _ h h x)
      by (eapply list_getitem_run; [exact HlA|]; rewrite py_index_nat; exact Hx).
    rewrite (bind_Return _ _ _ _ _ (get_blocks_run _ _ _ HcB)).
    rewrite (bind_Return _ _ h h y)
      by (eapply list_getitem_run; [exact HlB|]; rewrite py_index_nat; exact Hy).
    unfold block_ne. destruct (Nat.eqb_spec x y) as [->|Hxy]; cbn [negb].
    + destruct (IH (S a)) as (k & Hrun & Hk); [lia|].
      exists k. split; [exact Hrun|].
      assert (forall j, j = a -> lsA !! j = lsB !! j) as Ha
        by (intros j ->; congruence).
      destruct Hk as [(-> & Heq)|(Hk & Hne & Heq)]; [left|right];
        repeat split; try lia; try assumption;
        intros j Hj; destruct (Nat.eq_dec j a); auto; apply Heq; lia.
    + exists a. split; [reflexivity|]. right.
      split; [lia|]. split; [congruence|]. intros j Hj. lia.
Qed.

Lemma get_root_run (h : heap) (A B : loc) (lsA lsB : list loc) :
  chain_locs h A = Some lsA -> chain_locs h B = Some lsB ->
  exists k,
    get_root A B h = fork A (Z.of_nat k) h /\
    ((k = Nat.min (length lsA) (length lsB) /\
      forall j, 1 <= j < k -> lsA !! j = lsB !! j) \/
     (1 <= k < Nat.min (length lsA) (length lsB) /\ lsA !! k <> lsB !! k /\
      forall j, 1 <= j < k -> lsA !! j = lsB !! j)).
Proof.
  intros HA HB. unfold get_root.
  rewrite (bind_Return _ _ _ _ _ (length_run_locs _ _ _ HA)).
  rewrite (bind_Return _ _ _ _ _ (length_run_locs _ _ _ HB)).
  set (m := Nat.min (length lsA) (length lsB)). unfold py_range.
  destruct (Nat.eq_dec m 0) as [Hm|Hm].
  - exists 0. rewrite Hm. split; [reflexivity|]. left.
    split; [reflexivity|]. intros j Hj. lia.
  - destruct (get_root_loop_run h A B lsA lsB m HA HB) with (n := m - 1) (a := 1)
      as (k & Hrun & Hk); [lia|lia|lia|].
    exists k. split; [exact Hrun|].
    destruct Hk as [(-> & Heq)|Hk]; [left|right; exact Hk].
    split; [reflexivity|exact Heq].
Qed.




(** When the second blocks of the two chains are different objects, as
    they are when one chain is a fork of the other, [get_root] stops at
    position 1 and gives back the genesis block alone. *)
Lemma get_root_of_distinct_objects (h : heap) (A B : loc) (lsA lsB : list loc)
    (x y : loc) :
  chain_locs h A = Some lsA -> chain_locs h B = Some lsB ->
  lsA !! 1 = Some x -> lsB !! 1 = Some y -> x <> y ->
  get_root A B h = fork A 1 h.
Proof.
  intros HA HB Hx Hy Hxy.
  destruct (get_root_run h A B lsA lsB HA HB) as (k & Hrun & Hk).
  pose proof (lookup_lt_Some _ _ _ Hx). pose proof (lookup_lt_Some _ _ _ Hy).
  assert (k = 1) as ->; [|exact Hrun].
  destruct Hk as [(-> & Heq)|(Hk & Hne & Heq)].
  - exfalso. specialize (Heq 1). rewrite Hx, Hy in Heq.
    assert (Some x = Some y) as [= ->] by (apply Heq; lia). congruence.
  - destruct (Nat.eq_dec k 1) as [->|]; [reflexivity|]. exfalso.
    specialize (Heq 1). rewrite Hx, Hy in Heq.
    assert (Some x = Some y) as [= ->] by (apply Heq; lia). congruence.
Qed.

(** When [B] is a fork of [A] and both have two blocks or more,
    [A.get_root(B)] is the genesis block of [A] alone: the blocks of [B]
    are copies, so the comparison at position 1 finds two objects. *)
Lemma get_root_of_fork (h h1 : heap) (A B : loc) (blocksA : list BlockView)
    (upto : Z) :
  chain_view h A = Some blocksA ->
  fork A upto h = (Return B, h1) ->
  2 <= length blocksA -> 2 <= length (fork_blocks blocksA upto) ->
  exists R h2,
    get_root A B h1 = (Return R, h2) /\
    chain_view h2 R = Some (firstn 1 blocksA).
Proof.
  intros Hv Hfork HlenA HlenB.
  destruct (fork_run h A blocksA upto Hv) as (B' & h1' & Hrun & Hext & Hfresh).
  rewrite Hfork in Hrun. injection Hrun as <- <-.
  destruct Hfresh as (lB & lsB & _ & _ & Hnew & _ & HcB & HlB & HbsB).
  destruct (chain_view_inv _ _ _ Hv) as (lA & lsA & HcA & HlA & HbsA).
  pose proof (mapM_blocks_old _ _ _ HbsA) as Hold.
  pose proof (mapM_length_eq _ _ _ HbsA) as HeqA.
  pose proof (mapM_length_eq _ _ _ HbsB) as HeqB.
  destruct (lookup_lt_is_Some_2 lsA 1) as [x Hx]; [lia|].
  destruct (lookup_lt_is_Some_2 lsB 1) as [y Hy]; [lia|].
  assert (x <> y) as Hxy.
  { eapply List.Forall_forall in Hold;
      [|eapply list_elem_of_In, list_elem_of_lookup_2, Hx].
    eapply List.Forall_forall in Hnew;
      [|eapply list_elem_of_In, list_elem_of_lookup_2, Hy].
    lia. }
  assert (chain_view h1 A = Some blocksA) as Hv1
    by (eapply heap_ext_chain_view; eauto).
  rewrite (get_root_of_distinct_objects h1 A B lsA lsB x y); try assumption.
  - destruct (fork_run h1 A blocksA 1 Hv1) as (R & h2 & HrunR & _ & HfreshR).
    exists R, h2. split; [exact HrunR|].
    apply fresh_chain_view in HfreshR. rewrite fork_blocks_nat in HfreshR by lia.
    exact HfreshR.
  - eapply chain_locs_intro; [eapply heap_ext_chain; eauto|].
    eapply heap_ext_list; eauto.
  - eapply chain_locs_intro; eauto.
Qed.

(** C1: the scenario of the ancestor test, run.  [A] has four blocks and
    [B], taken by [A.fork()] from a chain of three, has three; the root
    [A.get_root(B)] has one block, not three. *)
Theorem ancestor_scenario_root_is_genesis_only :
  fst (ancestor_scenario []) = Return (4, 3, 1).
Proof. vm_compute. reflexivity. Qed.

(** C3: the scenario without divergence, run.  With [B = A.fork()] the
    chains have three and two blocks and the root has one; with
    [B = A.fork(0)], a copy of all three blocks, the root has one too.
    The shorter chain has two blocks in the first case and three in the
    second. *)
Theorem no_divergence_root_is_genesis_only :
  fst (no_divergence_scenario (-1) []) = Return (3, 2, 1) /\
  fst (no_divergence_scenario 0 []) = Return (3, 3, 1).
Proof. split; vm_compute; reflexivity. Qed.

(** ** The hash of a block *)

(** C8: [generate_hash] reads the four attributes [index], [timestamp],
    [data] and [previous_hash] and nothing else, so two blocks that agree
    on the four have the same digest, whatever their stored [hash]; and
    two blocks made by the constructor from the same four values have the
    same [hash], which is the digest [generate_hash] gives again.  For
    the constructor run on the object store: two calls with the same
    index, timestamp and previous hash, and with dictionaries -- two
    objects or one, in one heap or two -- that hold the same, both return
    and the two blocks have the same [hash]. *)
Theorem block_hash_deterministic (b1 b2 : BlockView) :
  index b1 = index b2 -> timestamp b1 = timestamp b2 ->
  data b1 = data b2 -> previous_hash b1 = previous_hash b2 ->
  generate_hash b1 = generate_hash b2 /\
  hash (Block_view_init (index b1) (timestamp b1) (data b1) (previous_hash b1))
  = hash (Block_view_init (index b2) (timestamp b2) (data b2) (previous_hash b2)) /\
  hash (Block_view_init (index b1) (timestamp b1) (data b1) (previous_hash b1))
  = generate_hash b2 /\
  forall (h1 h2 : heap) (d1 d2 : loc),
    heap_dict h1 d1 = Some (data b1) -> heap_dict h2 d2 = Some (data b2) ->
    exists o1 o2 : Block,
      Block_init (index b1) (timestamp b1) d1 (previous_hash b1) h1
      = (Return o1, h1) /\
      Block_init (index b2) (timestamp b2) d2 (previous_hash b2) h2
      = (Return o2, h2) /\
      hash o1 = hash o2 /\ hash o1 = generate_hash b1.
Proof.
  intros Hi Ht Hd Hp.
  assert (generate_hash b1 = generate_hash b2) as Hgen
    by (unfold generate_hash; rewrite Hi, Ht, Hd, Hp; reflexivity).
  split; [exact Hgen|]. split.
  { unfold Block_view_init, generate_hash.
    cbn [hash index timestamp data previous_hash].
    rewrite Hi, Ht, Hd, Hp. reflexivity. }
  split.
  { rewrite <- Hgen. reflexivity. }
  intros h1 h2 d1 d2 Hd1 Hd2.
  exists (with_data (Block_view_init (index b1) (timestamp b1) (data b1)
                       (previous_hash b1)) d1),
         (with_data (Block_view_init (index b2) (timestamp b2) (data b2)
                       (previous_hash b2)) d2).
  split; [apply Block_init_run, Hd1|]. split; [apply Block_init_run, Hd2|].
  cbn [with_data hash Block_view_init]. split; [|reflexivity].
  unfold generate_hash. cbn [index timestamp data previous_hash].
  rewrite Hi, Ht, Hd, Hp. reflexivity.
Qed.

(** ** The theorems at sample chains *)

Lemma validate_exhaustive_ordered_witness :
  chain_view tampered_heap 5 = Some [sample_genesis; tampered_block] /\
  exists (flag : bool) (errors : list string),
    validate 5 tampered_heap = (Return (flag, errors), tampered_heap) /\
    errors = map describe (violations_spec [sample_genesis; tampered_block]) /\
    (forall i k,
       In (i, k) (violations_spec [sample_genesis; tampered_block]) <->
       1 <= i < length [sample_genesis; tampered_block] /\
       exists prev cur,
         [sample_genesis; tampered_block] !! (i - 1) = Some prev /\
         [sample_genesis; tampered_block] !! i = Some cur /\
         check_fails prev cur i k = true) /\
    StronglySorted violation_lt
      (violations_spec [sample_genesis; tampered_block]) /\
    (flag = true <-> errors = []).
Proof.
  split; [vm_compute; reflexivity|].
  apply (validate_exhaustive_ordered tampered_heap 5
           [sample_genesis; tampered_block]).
  vm_compute; reflexivity.
Defined.


Lemma fork_upto_is_prefix_witness :
  chain_view sample_heap 3 = Some [sample_genesis; sample_block1; sample_block2] /\
  (1 <= 2 < Z.of_nat (length [sample_genesis; sample_block1; sample_block2]))%Z /\
  exists c2 h',
    fork 3 2 sample_heap = (Return c2, h') /\ c2 <> 3 /\
    chain_view h' c2
    = Some (firstn (Z.to_nat 2) [sample_genesis; sample_block1; sample_block2]) /\
    length_ c2 h' = (Return (Z.to_nat 2), h') /\
    chain_view h' 3 = Some [sample_genesis; sample_block1; sample_block2].
Proof.
  split; [vm_compute; reflexivity|]. split; [simpl; lia|].
  apply (fork_upto_is_prefix sample_heap 3
           [sample_genesis; sample_block1; sample_block2] 2).
  - vm_compute; reflexivity.
  - simpl; lia.
Defined.

Lemma fork_zero_copies_all_witness :
  chain_view sample_heap 3 = Some [sample_genesis; sample_block1; sample_block2] /\
  exists c2 h',
    fork 3 0 sample_heap = (Return c2, h') /\ c2 <> 3 /\
    chain_view h' c2 = Some [sample_genesis; sample_block1; sample_block2] /\
    length_ c2 h'
    = (Return (length [sample_genesis; sample_block1; sample_block2]), h').
Proof.
  split; [vm_compute; reflexivity|].
  apply (fork_zero_copies_all sample_heap 3
           [sample_genesis; sample_block1; sample_block2]).
  vm_compute; reflexivity.
Defined.

Lemma fork_shares_nothing_witness :
  chain_view sample_heap 3 = Some [sample_genesis; sample_block1; sample_block2] /\
  fork 3 (-1) sample_heap = (Return 15, sample_forked_heap) /\
  exists (ls1 ls2 : list loc) (blocks2 : list BlockView) (ds1 ds2 : list loc),
    chain_locs sample_forked_heap 3 = Some ls1 /\
    chain_view sample_forked_heap 3
    = Some [sample_genesis; sample_block1; sample_block2] /\
    chain_locs sample_forked_heap 15 = Some ls2 /\
    chain_view sample_forked_heap 15 = Some blocks2 /\
    15 <> 3 /\
    chain_list sample_forked_heap 15 <> chain_list sample_forked_heap 3 /\
    (forall x, In x ls1 -> ~ In x ls2) /\
    untouched_by_insert sample_forked_heap 15 3 ls1
      [sample_genesis; sample_block1; sample_block2] /\
    untouched_by_insert sample_forked_heap 3 15 ls2 blocks2 /\
    chain_dicts sample_forked_heap 3 = Some ds1 /\
    chain_dicts sample_forked_heap 15 = Some ds2 /\
    (forall d, In d ds1 -> ~ In d ds2).
Proof.
  split; [vm_compute; reflexivity|]. split; [vm_compute; reflexivity|].
  apply (fork_shares_nothing sample_heap sample_forked_heap 3 15
           [sample_genesis; sample_block1; sample_block2] (-1)).
  - vm_compute; reflexivity.
  - vm_compute; reflexivity.
Defined.


Lemma block_hash_deterministic_witness :
  index stored_block = index overwritten_block /\
  timestamp stored_block = timestamp overwritten_block /\
  data stored_block = data overwritten_block /\
  previous_hash stored_block = previous_hash overwritten_block /\
  generate_hash stored_block = generate_hash overwritten_block /\
  hash (Block_view_init (index stored_block) (timestamp stored_block)
          (data stored_block) (previous_hash stored_block))
  = hash (Block_view_init (index overwritten_block) (timestamp overwritten_block)
            (data overwritten_block) (previous_hash overwritten_block)) /\
  hash (Block_view_init (index stored_block) (timestamp stored_block)
          (data stored_block) (previous_hash stored_block))
  = generate_hash overwritten_block /\
  forall (h1 h2 : heap) (d1 d2 : loc),
    heap_dict h1 d1 = Some (data stored_block) ->
    heap_dict h2 d2 = Some (data overwritten_block) ->
    exists o1 o2 : Block,
      Block_init (index stored_block) (timestamp stored_block) d1
        (previous_hash stored_block) h1
      = (Return o1, h1) /\
      Block_init (index overwritten_block) (timestamp overwritten_block) d2
        (previous_hash overwritten_block) h2
      = (Return o2, h2) /\
      hash o1 = hash o2 /\ hash o1 = generate_hash stored_block.
Proof.
  split; [reflexivity|]. split; [reflexivity|]. split; [reflexivity|].
  split; [reflexivity|].
  exact (block_hash_deterministic stored_block overwritten_block
           eq_refl eq_refl eq_refl eq_refl).
Defined.

(** * Further properties of the code *)

(** ** Creation and [insert_block] *)

(** [Blockchain()] makes a chain of new objects with one block: index 0,
    the clock reading as timestamp, the fixed payload and previous hash,
    and the digest of these as hash.  The length is 1, [validate] gives
    [True] and no error, and [is_valid] is [True]. *)
Theorem new_chain_is_valid (h : heap) (now : string) :
  exists c h' g,
    Blockchain_init now h = (Return c, h') /\
    heap_ext h h' /\ length h <= c /\
    chain_view h' c = Some [g] /\
    index g = 0%Z /\ timestamp g = now /\ data g = genesis_data /\
    previous_hash g = "Liberate my madness..." /\
    hash g = generate_hash g /\
    length_ c h' = (Return 1, h') /\
    validate c h' = (Return (true, []), h') /\
    is_valid c h' = (Return true, h').
Proof.
  destruct (Blockchain_init_view h now) as (c & h' & Hinit & Hext & Hv).
  exists c, h', (Block_view_init 0 now genesis_data "Liberate my madness...").
  split; [exact Hinit|]. split; [exact Hext|]. split.
  { rewrite Blockchain_init_run in Hinit. injection Hinit as <- _. lia. }
  split; [exact Hv|]. repeat (split; [reflexivity|]).
  split; [apply (length_run _ _ _ Hv)|].
  assert (validate c h' = (Return (true, []), h')) as Hval
    by (rewrite (validate_run _ _ _ Hv); reflexivity).
  split; [exact Hval|]. unfold is_valid.
  rewrite (bind_Return _ _ _ _ _ Hval). reflexivity.
Qed.

(** On a chain with a last block, [insert_block] called with a
    dictionary returns the address of a new block object, which is then
    [latest_block].  The block has the old length as index, the clock
    reading as timestamp, the dictionary passed -- the object itself, not
    a copy -- as data, the hash of the block that was last as previous
    hash, and as hash its digest over what the dictionary holds at the
    call.  The chain holds the objects it held, then the new one. *)
Theorem insert_block_appends (h : heap) (c : loc) (ls : list loc)
    (blocks : list BlockView) (p : BlockView) (d : loc) (j : json)
    (now : string) :
  chain_locs h c = Some ls -> chain_view h c = Some blocks ->
  last blocks = Some p -> heap_dict h d = Some j ->
  exists b h' new,
    insert_block c d now h = (Return b, h') /\
    ~ In b ls /\
    heap_object h' b = Some (with_data new d) /\
    heap_block h' b = Some new /\
    index new = Z.of_nat (length blocks) /\ timestamp new = now /\
    data new = j /\ previous_hash new = hash p /\
    hash new = generate_hash new /\
    chain_locs h' c = Some (ls ++ [b]) /\
    chain_view h' c = Some (blocks ++ [new]) /\
    latest_block c h' = (Return b, h') /\
    length_ c h' = (Return (S (length blocks)), h').
Proof.
  intros Hlocs Hv Hp Hd.
  destruct (insert_block_view h c blocks p d j now Hv Hp Hd)
    as (h' & Hrun & Hv' & _).
  destruct (chain_view_inv _ _ _ Hv) as (l & ls0 & Hc & Hl & Hbs).
  assert (ls0 = ls) as ->.
  { unfold chain_locs in Hlocs. rewrite Hc in Hlocs. congruence. }
  destruct (last_mapM_blocks _ _ _ _ Hbs Hp) as (x & Hx & Hxp).
  pose proof (insert_block_run h c l x ls p d j now Hc Hl Hx Hxp Hd) as Hrun2.
  rewrite Hrun in Hrun2. injection Hrun2 as Hh'.
  rewrite (mapM_length_eq _ _ _ Hbs) in Hh'.
  set (new := Block_view_init (Z.of_nat (length blocks)) now j (hash p)) in *.
  set (h1 := h ++ [OBlock (with_data new d)]) in *.
  assert (heap_ext h h1) as Hext by apply heap_ext_alloc.
  assert (heap_list h1 l = Some ls) as Hl1 by (eapply heap_ext_list; eauto).
  assert (h1 !! length h = Some (OBlock (with_data new d))) as Hnew
    by apply lookup_snoc_at.
  assert (chain_locs h' c = Some (ls ++ [length h])) as Hlocs'.
  { rewrite Hh'. eapply chain_locs_intro.
    - rewrite (chain_list_insert_list _ _ _ ls) by exact Hl1.
      eapply heap_ext_chain; eauto.
    - eapply heap_list_insert_eq, Hl1. }
  exists (length h), h', new. split; [exact Hrun|]. split.
  { intros Hin. pose proof (mapM_blocks_old _ _ _ Hbs) as Hold.
    eapply List.Forall_forall in Hold; [|exact Hin]. lia. }
  split.
  { rewrite Hh', (heap_object_insert_list _ _ _ ls) by exact Hl1.
    apply heap_object_Some, Hnew. }
  split.
  { rewrite Hh', (heap_block_insert_list _ _ _ ls) by exact Hl1.
    rewrite <- (with_data_view new d). apply heap_block_at; [exact Hnew|].
    apply Hext, heap_dict_Some, Hd. }
  repeat (split; [reflexivity|]). split; [exact Hlocs'|].
  split; [exact Hv'|]. split.
  - destruct (chain_locs_inv _ _ _ Hlocs') as (l' & Hc' & Hl').
    unfold latest_block.
    rewrite (bind_Return _ _ _ _ _ (get_blocks_run _ _ _ Hc')).
    eapply list_getitem_run; [exact Hl'|].
    rewrite py_index_last. apply last_snoc.
  - rewrite (length_run _ _ _ Hv'), length_app. cbn [length].
    do 2 f_equal. lia.
Qed.

Lemma insert_block_appends_witness :
  chain_locs sample_heap_with_dict 3 = Some [1; 5; 7] /\
  chain_view sample_heap_with_dict 3
  = Some [sample_genesis; sample_block1; sample_block2] /\
  last [sample_genesis; sample_block1; sample_block2] = Some sample_block2 /\
  heap_dict sample_heap_with_dict 8 = Some (JDict [("v", JInt 3)]) /\
  exists b h' new,
    insert_block 3 8 "1700000003.0" sample_heap_with_dict = (Return b, h') /\
    ~ In b [1; 5; 7] /\
    heap_object h' b = Some (with_data new 8) /\
    heap_block h' b = Some new /\
    index new
    = Z.of_nat (length [sample_genesis; sample_block1; sample_block2]) /\
    timestamp new = "1700000003.0" /\
    data new = JDict [("v", JInt 3)] /\ previous_hash new = hash sample_block2 /\
    hash new = generate_hash new /\
    chain_locs h' 3 = Some ([1; 5; 7] ++ [b]) /\
    chain_view h' 3
    = Some ([sample_genesis; sample_block1; sample_block2] ++ [new]) /\
    latest_block 3 h' = (Return b, h') /\
    length_ 3 h'
    = (Return (S (length [sample_genesis; sample_block1; sample_block2])), h').
Proof.
  split; [vm_compute; reflexivity|]. split; [vm_compute; reflexivity|].
  split; [reflexivity|]. split; [reflexivity|].
  apply (insert_block_appends sample_heap_with_dict 3 [1; 5; 7]
           [sample_genesis; sample_block1; sample_block2] sample_block2).
  - vm_compute; reflexivity.
  - vm_compute; reflexivity.
  - reflexivity.
  - reflexivity.
Defined.

(** On a chain with no block, [insert_block] raises [IndexError] at
    [self.blocks[-1]] before it changes anything, and so does
    [latest_block]. *)
Theorem insert_block_on_empty_chain_raises (h : heap) (c : loc) (d : loc)
    (now : string) :
  chain_locs h c = Some [] ->
  insert_block c d now h = (Raise IndexError, h) /\
  latest_block c h = (Raise IndexError, h).
Proof.
  intros (l & Hc & Hl)%chain_locs_inv.
  assert (latest_block c h = (Raise IndexError, h)) as Hlast.
  { unfold latest_block.
    rewrite (bind_Return _ _ _ _ _ (get_blocks_run _ _ _ Hc)).
    eapply list_getitem_out; [exact Hl|reflexivity]. }
  split; [|exact Hlast]. unfold insert_block.
  rewrite (bind_Return _ _ _ _ _ (get_blocks_run _ _ _ Hc)).
  rewrite (bind_Return _ _ h h 0).
  2:{ unfold length_.
      rewrite (bind_Return _ _ _ _ _ (get_blocks_run _ _ _ Hc)).
      apply (list_len_run _ _ _ Hl). }
  apply bind_Raise, Hlast.
Qed.

Lemma insert_block_on_empty_chain_raises_witness :
  chain_locs empty_fork_heap 7 = Some [] /\
  insert_block 7 0 "1700000001.0" empty_fork_heap
  = (Raise IndexError, empty_fork_heap) /\
  latest_block 7 empty_fork_heap = (Raise IndexError, empty_fork_heap).
Proof.
  split; [vm_compute; reflexivity|].
  apply (insert_block_on_empty_chain_raises empty_fork_heap 7).
  vm_compute; reflexivity.
Defined.

(** ** What [validate] accepts *)

Lemma no_violation_iff_invariant (blocks : list BlockView) :
  no_violation blocks = true <-> chain_invariant blocks.
Proof.
  unfold no_violation. split.
  - intros Hnil i prev cur Hi Hp Hc.
    assert (violations_spec blocks = []) as Hnil'
      by (destruct (violations_spec blocks); [reflexivity|discriminate]).
    assert (forall k, check_fails prev cur i k = false) as Hk.
    { intros k. destruct (check_fails prev cur i k) eqn:E; [|reflexivity].
      exfalso. assert (In (i, k) (violations_spec blocks)) as Hin.
      { apply violations_spec_In. split.
        - apply lookup_lt_Some in Hc. lia.
        - exists prev, cur. auto. }
      rewrite Hnil' in Hin. exact Hin. }
    pose proof (Hk IndexContinuity) as H1. pose proof (Hk HashLinkage) as H2.
    pose proof (Hk DigestMismatch) as H3.
    pose proof (Hk TimestampBackdating) as H4.
    cbn [check_fails] in H1, H2, H3, H4.
    apply negb_false_iff in H1, H2, H3. unfold str_ge in H4.
    apply negb_false_iff in H4.
    apply Z.eqb_eq in H1. apply String.eqb_eq in H2, H3. auto.
  - intros Hinv. destruct (violations_spec blocks) as [|[i k] vs] eqn:E;
      [reflexivity|exfalso].
    assert (In (i, k) (violations_spec blocks)) as Hin by (rewrite E; left; reflexivity).
    apply violations_spec_In in Hin as (Hi & prev & cur & Hp & Hc & Hf).
    destruct (Hinv i prev cur) as (H1 & H2 & H3 & H4); [lia|exact Hp|exact Hc|].
    destruct k; cbn [check_fails] in Hf.
    + rewrite H1, Z.eqb_refl in Hf. discriminate.
    + rewrite H2, String.eqb_refl in Hf. discriminate.
    + rewrite <- H3, String.eqb_refl in Hf. discriminate.
    + unfold str_ge in Hf. rewrite H4 in Hf. discriminate.
Qed.

(** [validate] returns [True] exactly when the chain has the invariant of
    a well-formed chain at every position from 1 on: index, link to the
    hash before, stored hash equal to the digest, strictly greater
    timestamp.  [is_valid] is that boolean. *)
Theorem validate_true_iff_invariant (h : heap) (c : loc) (blocks : list BlockView) :
  chain_view h c = Some blocks ->
  exists (flag : bool) (errors : list string),
    validate c h = (Return (flag, errors), h) /\
    is_valid c h = (Return flag, h) /\
    (flag = true <-> chain_invariant blocks).
Proof.
  intros Hv. pose proof (validate_run _ _ _ Hv) as Hval.
  exists (no_violation blocks), (map describe (violations_spec blocks)).
  split; [exact Hval|]. split.
  - unfold is_valid. rewrite (bind_Return _ _ _ _ _ Hval). reflexivity.
  - apply no_violation_iff_invariant.
Qed.

Lemma validate_true_iff_invariant_witness :
  chain_view tampered_heap 5 = Some [sample_genesis; tampered_block] /\
  exists (flag : bool) (errors : list string),
    validate 5 tampered_heap = (Return (flag, errors), tampered_heap) /\
    is_valid 5 tampered_heap = (Return flag, tampered_heap) /\
    (flag = true <-> chain_invariant [sample_genesis; tampered_block]).
Proof.
  split; [vm_compute; reflexivity|].
  apply (validate_true_iff_invariant tampered_heap 5
           [sample_genesis; tampered_block]).
  vm_compute; reflexivity.
Defined.

(** A chain with one block or none passes [validate] whatever the block
    holds: the loop starts at position 1, so the first block is never
    looked at on its own. *)
Theorem validate_short_chain (h : heap) (c : loc) (blocks : list BlockView) :
  chain_view h c = Some blocks -> length blocks <= 1 ->
  validate c h = (Return (true, []), h).
Proof.
  intros Hv Hlen. rewrite (validate_run _ _ _ Hv).
  assert (violations_spec blocks = []) as Hnil.
  { unfold violations_spec, py_range.
    replace (length blocks - 1) with 0 by lia. reflexivity. }
  unfold no_violation. rewrite Hnil. reflexivity.
Qed.

Lemma validate_short_chain_witness :
  chain_view lone_tampered_heap 3 = Some [tampered_block] /\
  length [tampered_block] <= 1 /\
  validate 3 lone_tampered_heap = (Return (true, []), lone_tampered_heap).
Proof.
  split; [vm_compute; reflexivity|]. split; [simpl; lia|].
  apply (validate_short_chain lone_tampered_heap 3 [tampered_block]).
  - vm_compute; reflexivity.
  - simpl; lia.
Defined.

Lemma violations_at_first_block (g g' : BlockView) (rest : list BlockView) (i : nat) :
  1 <= i -> hash g = hash g' -> timestamp g = timestamp g' ->
  violations_at (g :: rest) i = violations_at (g' :: rest) i.
Proof.
  intros Hi Hh Ht. unfold violations_at.
  destruct i as [|i]; [lia|]. cbn [lookup list_lookup].
  replace (S i - 1) with i by lia.
  destruct (rest !! i) as [cur|]; [|reflexivity].
  destruct i as [|i]; [|reflexivity]. cbn [lookup list_lookup].
  unfold all_checks. cbn [List.filter check_fails]. rewrite Hh, Ht. reflexivity.
Qed.

(** [validate] reads the hash and the timestamp of the first block and
    nothing else of it: two chains that differ only in the index, the
    payload or the previous hash of their first block get the same
    verdict and the same errors. *)
Theorem validate_ignores_genesis_content (h h' : heap) (c c' : loc)
    (g g' : BlockView) (rest : list BlockView) :
  chain_view h c = Some (g :: rest) -> chain_view h' c' = Some (g' :: rest) ->
  hash g = hash g' -> timestamp g = timestamp g' ->
  fst (validate c h) = fst (validate c' h').
Proof.
  intros Hv Hv' Hh Ht.
  rewrite (validate_run _ _ _ Hv), (validate_run _ _ _ Hv'). cbn [fst].
  assert (violations_spec (g :: rest) = violations_spec (g' :: rest)) as Heq.
  { unfold violations_spec. cbn [length]. apply flat_map_ext_In.
    intros i Hi. unfold py_range in Hi. apply in_seq in Hi.
    apply violations_at_first_block; [lia|exact Hh|exact Ht]. }
  unfold no_violation. rewrite Heq. reflexivity.
Qed.

Lemma validate_ignores_genesis_content_witness :
  chain_view (two_block_heap sample_genesis) 5
  = Some (sample_genesis :: [sample_block1]) /\
  chain_view (two_block_heap edited_genesis) 5
  = Some (edited_genesis :: [sample_block1]) /\
  hash sample_genesis = hash edited_genesis /\
  timestamp sample_genesis = timestamp edited_genesis /\
  fst (validate 5 (two_block_heap sample_genesis))
  = fst (validate 5 (two_block_heap edited_genesis)).
Proof.
  split; [vm_compute; reflexivity|]. split; [vm_compute; reflexivity|].
  split; [vm_compute; reflexivity|]. split; [vm_compute; reflexivity|].
  apply (validate_ignores_genesis_content
           (two_block_heap sample_genesis) (two_block_heap edited_genesis) 5 5
           sample_genesis edited_genesis [sample_block1]);
    vm_compute; reflexivity.
Defined.

(** ** Clock readings that do not increase *)

Lemma violations_at_new_block_cases (bs : list BlockView) (p : BlockView) (d : json)
    (now : string) :
  last bs = Some p ->
  violations_at (bs ++ [Block_view_init (Z.of_nat (length bs)) now d (hash p)])
    (length bs)
  = if str_lt (timestamp p) now then []
    else [(length bs, TimestampBackdating)].
Proof.
  intros Hp. unfold violations_at.
  assert (length bs <> 0) by (destruct bs; [discriminate|discriminate]).
  rewrite lookup_app_r by lia. rewrite Nat.sub_diag. cbn [lookup list_lookup].
  rewrite lookup_app_l by lia. rewrite last_lookup in Hp.
  replace (length bs - 1) with (Init.Nat.pred (length bs)) by lia. rewrite Hp.
  unfold all_checks. cbn [List.filter check_fails].
  rewrite generate_hash_Block_view_init. unfold Block_view_init.
  cbn [index hash previous_hash timestamp].
  rewrite Z.eqb_refl, !String.eqb_refl. unfold str_ge.
  destruct (str_lt (timestamp p) now); reflexivity.
Qed.

(** [insert_block] does not look at the clock reading it stores.  On a
    chain that passes [validate], a call that passes a dictionary and
    whose reading is not greater than the timestamp of the last block --
    an equal reading is enough -- returns all the same, and [validate]
    then gives [False] with one error, the backdating of the new block. *)
Theorem insert_block_backdated (h : heap) (c : loc) (blocks : list BlockView)
    (p : BlockView) (d : loc) (j : json) (now : string) :
  chain_view h c = Some blocks -> last blocks = Some p ->
  heap_dict h d = Some j ->
  validate c h = (Return (true, []), h) ->
  str_ge (timestamp p) now = true ->
  exists b h',
    insert_block c d now h = (Return b, h') /\
    validate c h'
    = (Return (false, [fmt_error "Backdating" (length blocks)]), h').
Proof.
  intros Hv Hp Hd Hval Hge.
  destruct (insert_block_view h c blocks p d j now Hv Hp Hd)
    as (h' & Hrun & Hv' & _).
  exists (length h), h'. split; [exact Hrun|].
  rewrite (validate_run _ _ _ Hv) in Hval. injection Hval as Hflag _.
  assert (violations_spec blocks = []) as Hnil.
  { unfold no_violation in Hflag.
    destruct (violations_spec blocks); [reflexivity|discriminate]. }
  rewrite (validate_run _ _ _ Hv'). unfold no_violation.
  rewrite violations_spec_snoc by (intros ->; discriminate).
  rewrite Hnil, violations_at_new_block_cases by exact Hp.
  unfold str_ge in Hge. apply negb_true_iff in Hge. rewrite Hge. reflexivity.
Qed.

Lemma insert_block_backdated_witness :
  chain_view sample_heap_with_dict 3
  = Some [sample_genesis; sample_block1; sample_block2] /\
  last [sample_genesis; sample_block1; sample_block2] = Some sample_block2 /\
  heap_dict sample_heap_with_dict 8 = Some (JDict [("v", JInt 3)]) /\
  validate 3 sample_heap_with_dict = (Return (true, []), sample_heap_with_dict) /\
  str_ge (timestamp sample_block2) "1700000002.0" = true /\
  exists b h',
    insert_block 3 8 "1700000002.0" sample_heap_with_dict = (Return b, h') /\
    validate 3 h'
    = (Return (false,
               [fmt_error "Backdating"
                  (length [sample_genesis; sample_block1; sample_block2])]),
       h').
Proof.
  split; [vm_compute; reflexivity|]. split; [reflexivity|].
  split; [reflexivity|].
  split; [vm_compute; reflexivity|]. split; [vm_compute; reflexivity|].
  apply (insert_block_backdated sample_heap_with_dict 3
           [sample_genesis; sample_block1; sample_block2] sample_block2 8
           (JDict [("v", JInt 3)])).
  - vm_compute; reflexivity.
  - reflexivity.
  - reflexivity.
  - vm_compute; reflexivity.
  - vm_compute; reflexivity.
Defined.

Lemma only_backdating_snoc (bs : list BlockView) (p : BlockView) (d : json)
    (now : string) :
  last bs = Some p -> only_backdating bs ->
  only_backdating (bs ++ [Block_view_init (Z.of_nat (length bs)) now d (hash p)]).
Proof.
  intros Hp Hbs i k. rewrite violations_spec_snoc by (intros ->; discriminate).
  rewrite violations_at_new_block_cases by exact Hp.
  intros [Hin|Hin]%in_app_or; [eapply Hbs, Hin|].
  destruct (str_lt (timestamp p) now); [contradiction|].
  destruct Hin as [[= _ <-]|[]]. reflexivity.
Qed.

Lemma insert_blocks_run (calls : list (payload_arg * string)) :
  forall (h : heap) (c : loc) (bs : list BlockView) (p : BlockView)
         (payloads : list json),
    chain_view h c = Some bs -> last bs = Some p -> only_backdating bs ->
    mapM (arg_payload h) (map fst calls) = Some payloads ->
    exists h' bs',
      insert_blocks c calls h = (Return tt, h') /\
      chain_view h' c = Some (bs ++ bs') /\
      map timestamp bs' = map snd calls /\
      map data bs' = payloads /\
      only_backdating (bs ++ bs').
Proof.
  induction calls as [|[a now] calls IH]; intros h c bs p payloads Hv Hp Hok Hds.
  - apply mapM_Some in Hds. inversion Hds; subst.
    exists h, []. rewrite app_nil_r. cbn. auto.
  - apply mapM_Some in Hds. cbn [map fst] in Hds.
    inversion Hds as [|? j ? js Ha Hrest%mapM_Some]; subst.
    destruct (insert_blocks_step h c bs p a j now Hv Hp Ha)
      as (d & h0 & h1 & Hpass & Hrun & Hv1 & Hkeep).
    set (b := Block_view_init (Z.of_nat (length bs)) now j (hash p)) in *.
    destruct (IH h1 c (bs ++ [b]) b js Hv1)
      as (h' & bs' & Hrun' & Hv' & Ht & Hd & Hok').
    + apply last_snoc.
    + apply only_backdating_snoc; assumption.
    + eapply arg_payloads_ext; eauto.
    + exists h', (b :: bs'). cbn [insert_blocks].
      rewrite (bind_Return _ _ _ _ _ Hpass).
      rewrite (bind_Return _ _ _ _ _ Hrun).
      rewrite <- app_assoc in Hv', Hok'. cbn [app] in Hv', Hok'.
      repeat split; try assumption; cbn [map fst snd]; f_equal; assumption.
Qed.

(** A chain made by [Blockchain()] and [insert_block] calls alone, one
    after the other, with any clock readings, each call passing a
    dictionary, and no dictionary changed in between: every call returns,
    the chain holds the genesis block and then one block for each call,
    with the readings and with what the dictionaries hold, in the order of
    the calls, and the only errors [validate] can report on it are
    backdating errors. *)
Theorem api_chain_fails_only_on_timestamps (h : heap) (t0 : string)
    (calls : list (payload_arg * string)) (payloads : list json) :
  mapM (arg_payload h) (map fst calls) = Some payloads ->
  exists c h1 h2 blocks,
    Blockchain_init t0 h = (Return c, h1) /\
    insert_blocks c calls h1 = (Return tt, h2) /\
    chain_view h2 c = Some blocks /\
    map timestamp blocks = t0 :: map snd calls /\
    map data blocks = genesis_data :: payloads /\
    only_backdating blocks /\
    validate c h2
    = (Return (no_violation blocks, map describe (violations_spec blocks)), h2).
Proof.
  intros Hds.
  destruct (Blockchain_init_view h t0) as (c & h1 & Hinit & Hext & Hv).
  set (g := Block_view_init 0 t0 genesis_data "Liberate my madness...") in *.
  destruct (insert_blocks_run calls h1 c [g] g payloads Hv eq_refl)
    as (h2 & bs' & Hrun & Hv2 & Ht & Hd & Hok).
  { intros i k Hin. contradiction. }
  { eapply arg_payloads_ext; [|exact Hds].
    intros d j Hd. eapply heap_ext_dict; eauto. }
  exists c, h1, h2, ([g] ++ bs'). split; [exact Hinit|].
  split; [exact Hrun|]. split; [exact Hv2|].
  split; [cbn; f_equal; exact Ht|]. split; [cbn; f_equal; exact Hd|].
  split; [exact Hok|]. apply validate_run, Hv2.
Qed.

Lemma api_chain_fails_only_on_timestamps_witness :
  mapM (arg_payload two_dicts_heap)
    (map fst [(Held 1, "1700000002.0"); (Held 1, "1700000001.0");
              (Display (JDict []), "1700000001.0")])
  = Some [JDict [("v", JInt 2)]; JDict [("v", JInt 2)]; JDict []] /\
  exists c h1 h2 blocks,
    Blockchain_init "1700000000.0" two_dicts_heap = (Return c, h1) /\
    insert_blocks c [(Held 1, "1700000002.0"); (Held 1, "1700000001.0");
                     (Display (JDict []), "1700000001.0")] h1
    = (Return tt, h2) /\
    chain_view h2 c = Some blocks /\
    map timestamp blocks
    = "1700000000.0"
      :: map snd [(Held 1, "1700000002.0"); (Held 1, "1700000001.0");
                  (Display (JDict []), "1700000001.0")] /\
    map data blocks
    = genesis_data :: [JDict [("v", JInt 2)]; JDict [("v", JInt 2)]; JDict []] /\
    only_backdating blocks /\
    validate c h2
    = (Return (no_violation blocks, map describe (violations_spec blocks)), h2).
Proof.
  split; [vm_compute; reflexivity|].
  apply (api_chain_fails_only_on_timestamps two_dicts_heap "1700000000.0"
           [(Held 1, "1700000002.0"); (Held 1, "1700000001.0");
            (Display (JDict []), "1700000001.0")]
           [JDict [("v", JInt 2)]; JDict [("v", JInt 2)]; JDict []]).
  vm_compute; reflexivity.
Defined.

(** ** [fork] for every [upto] *)

Lemma fork_length_le (n : nat) (upto : Z) : fork_length n upto <= n.
Proof.
  unfold fork_length. destruct (upto =? 0)%Z; [lia|].
  destruct (Z.ltb_spec upto 0); lia.
Qed.

Lemma fork_blocks_firstn {A} (items : list A) (upto : Z) :
  fork_blocks items upto = firstn (fork_length (length items) upto) items.
Proof.
  unfold fork_blocks, fork_length, py_slice_upto.
  destruct (upto =? 0)%Z; [symmetry; apply firstn_all|].
  destruct (Z.ltb_spec upto 0); f_equal; lia.
Qed.

(** [fork(upto)] returns on every chain and for every integer, and the new
    chain is a prefix of the original, by value: all of it for [0], the
    first [upto] blocks for a positive [upto] (all of it when [upto] is
    the length or more), all but the last [-upto] blocks for a negative
    one (none when that is the length or more).  The original keeps its
    blocks. *)
Theorem fork_is_prefix (h : heap) (c1 : loc) (blocks : list BlockView) (upto : Z) :
  chain_view h c1 = Some blocks ->
  exists c2 h',
    fork c1 upto h = (Return c2, h') /\
    chain_view h' c2
    = Some (firstn (fork_length (length blocks) upto) blocks) /\
    length_ c2 h' = (Return (fork_length (length blocks) upto), h') /\
    fork_length (length blocks) upto <= length blocks /\
    chain_view h' c1 = Some blocks.
Proof.
  intros Hv.
  destruct (fork_run h c1 blocks upto Hv) as (c2 & h' & Hrun & Hext & Hfresh).
  apply fresh_chain_view in Hfresh. rewrite fork_blocks_firstn in Hfresh.
  pose proof (fork_length_le (length blocks) upto) as Hle.
  exists c2, h'. split; [exact Hrun|]. split; [exact Hfresh|]. split.
  - rewrite (length_run _ _ _ Hfresh), length_firstn. do 2 f_equal. lia.
  - split; [exact Hle|]. eapply heap_ext_chain_view; eauto.
Qed.

Lemma fork_is_prefix_witness :
  chain_view sample_heap 3
  = Some [sample_genesis; sample_block1; sample_block2] /\
  exists c2 h',
    fork 3 (-2) sample_heap = (Return c2, h') /\
    chain_view h' c2
    = Some (firstn
              (fork_length
                 (length [sample_genesis; sample_block1; sample_block2]) (-2))
              [sample_genesis; sample_block1; sample_block2]) /\
    length_ c2 h'
    = (Return
         (fork_length
            (length [sample_genesis; sample_block1; sample_block2]) (-2)), h') /\
    fork_length (length [sample_genesis; sample_block1; sample_block2]) (-2)
    <= length [sample_genesis; sample_block1; sample_block2] /\
    chain_view h' 3 = Some [sample_genesis; sample_block1; sample_block2].
Proof.
  split; [vm_compute; reflexivity|].
  apply (fork_is_prefix sample_heap 3
           [sample_genesis; sample_block1; sample_block2] (-2)).
  vm_compute; reflexivity.
Defined.

Lemma chain_invariant_firstn (blocks : list BlockView) (n : nat) :
  chain_invariant blocks -> chain_invariant (firstn n blocks).
Proof.
  intros Hinv i prev cur Hi Hp Hc.
  apply lookup_take_Some in Hp as [Hp _]. apply lookup_take_Some in Hc as [Hc _].
  eapply Hinv; eauto.
Qed.

(** A fork of a chain that passes [validate] passes [validate], for every
    [upto]. *)
Theorem fork_of_valid_chain_is_valid (h : heap) (c1 : loc)
    (blocks : list BlockView) (upto : Z) :
  chain_view h c1 = Some blocks ->
  validate c1 h = (Return (true, []), h) ->
  exists c2 h',
    fork c1 upto h = (Return c2, h') /\
    validate c2 h' = (Return (true, []), h').
Proof.
  intros Hv Hval.
  destruct (fork_run h c1 blocks upto Hv) as (c2 & h' & Hrun & Hext & Hfresh).
  apply fresh_chain_view in Hfresh. rewrite fork_blocks_firstn in Hfresh.
  exists c2, h'. split; [exact Hrun|].
  rewrite (validate_run _ _ _ Hv) in Hval. injection Hval as Hflag _.
  apply no_violation_iff_invariant in Hflag.
  apply (chain_invariant_firstn _ (fork_length (length blocks) upto)) in Hflag.
  apply no_violation_iff_invariant in Hflag.
  rewrite (validate_run _ _ _ Hfresh), Hflag. unfold no_violation in Hflag.
  destruct (violations_spec _); [reflexivity|discriminate].
Qed.

Lemma fork_of_valid_chain_is_valid_witness :
  chain_view sample_heap 3
  = Some [sample_genesis; sample_block1; sample_block2] /\
  validate 3 sample_heap = (Return (true, []), sample_heap) /\
  exists c2 h',
    fork 3 2 sample_heap = (Return c2, h') /\
    validate c2 h' = (Return (true, []), h').
Proof.
  split; [vm_compute; reflexivity|]. split; [vm_compute; reflexivity|].
  apply (fork_of_valid_chain_is_valid sample_heap 3
           [sample_genesis; sample_block1; sample_block2] 2).
  - vm_compute; reflexivity.
  - vm_compute; reflexivity.
Defined.

(** ** [get_root] for every pair of chains *)

(** [get_root] returns on every pair of chains.  Its result is
    [self.fork(k)] where [k] is the first position from 1 on, below the
    length of the shorter chain, at which the two chains hold different
    objects, or that length when there is none.  The new chain is made of
    new objects and is a prefix of [self] by value; both chains keep their
    block objects and their blocks. *)
Theorem get_root_first_difference (h : heap) (A B : loc)
    (lsA lsB : list loc) (blocksA blocksB : list BlockView) :
  chain_locs h A = Some lsA -> chain_view h A = Some blocksA ->
  chain_locs h B = Some lsB -> chain_view h B = Some blocksB ->
  exists k R h',
    get_root A B h = (Return R, h') /\
    ((k = Nat.min (length lsA) (length lsB) /\
      forall j, 1 <= j < k -> lsA !! j = lsB !! j) \/
     (1 <= k < Nat.min (length lsA) (length lsB) /\ lsA !! k <> lsB !! k /\
      forall j, 1 <= j < k -> lsA !! j = lsB !! j)) /\
    fresh_chain h h' R (fork_blocks blocksA (Z.of_nat k)) /\
    chain_view h' R
    = Some (firstn (fork_length (length blocksA) (Z.of_nat k)) blocksA) /\
    chain_locs h' A = Some lsA /\ chain_view h' A = Some blocksA /\
    chain_locs h' B = Some lsB /\ chain_view h' B = Some blocksB.
Proof.
  intros HlA HvA HlB HvB.
  destruct (get_root_run h A B lsA lsB HlA HlB) as (k & Hrun & Hk).
  destruct (fork_run h A blocksA (Z.of_nat k) HvA)
    as (R & h' & Hfork & Hext & Hfresh).
  exists k, R, h'. split; [congruence|]. split; [exact Hk|].
  split; [exact Hfresh|]. split.
  { rewrite <- fork_blocks_firstn. eapply fresh_chain_view; eauto. }
  eauto 10 using heap_ext_chain_locs, heap_ext_chain_view.
Qed.

Lemma get_root_first_difference_witness :
  chain_locs sample_forked_heap 3 = Some [1; 5; 7] /\
  chain_view sample_forked_heap 3
  = Some [sample_genesis; sample_block1; sample_block2] /\
  chain_locs sample_forked_heap 15 = Some [9; 11] /\
  chain_view sample_forked_heap 15 = Some [sample_genesis; sample_block1] /\
  exists k R h',
    get_root 3 15 sample_forked_heap = (Return R, h') /\
    ((k = Nat.min (length [1; 5; 7]) (length [9; 11]) /\
      forall j, 1 <= j < k -> [1; 5; 7] !! j = [9; 11] !! j) \/
     (1 <= k < Nat.min (length [1; 5; 7]) (length [9; 11]) /\
      [1; 5; 7] !! k <> [9; 11] !! k /\
      forall j, 1 <= j < k -> [1; 5; 7] !! j = [9; 11] !! j)) /\
    fresh_chain sample_forked_heap h' R
      (fork_blocks [sample_genesis; sample_block1; sample_block2] (Z.of_nat k)) /\
    chain_view h' R
    = Some (firstn
              (fork_length
                 (length [sample_genesis; sample_block1; sample_block2])
                 (Z.of_nat k))
              [sample_genesis; sample_block1; sample_block2]) /\
    chain_locs h' 3 = Some [1; 5; 7] /\
    chain_view h' 3 = Some [sample_genesis; sample_block1; sample_block2] /\
    chain_locs h' 15 = Some [9; 11] /\
    chain_view h' 15 = Some [sample_genesis; sample_block1].
Proof.
  split; [vm_compute; reflexivity|]. split; [vm_compute; reflexivity|].
  split; [vm_compute; reflexivity|]. split; [vm_compute; reflexivity|].
  apply (get_root_first_difference sample_forked_heap 3 15 [1; 5; 7] [9; 11]
           [sample_genesis; sample_block1; sample_block2]
           [sample_genesis; sample_block1]);
    vm_compute; reflexivity.
Defined.

(** A chain is its own root: [A.get_root(A)] is a copy of all of [A]. *)
Theorem get_root_of_itself (h : heap) (A : loc) (blocks : list BlockView) :
  chain_view h A = Some blocks ->
  exists R h',
    get_root A A h = (Return R, h') /\ R <> A /\
    chain_view h' R = Some blocks.
Proof.
  intros Hv. destruct (chain_view_locs _ _ _ Hv) as (ls & Hl & Hlen).
  destruct (get_root_run h A A ls ls Hl Hl) as (k & Hrun & Hk).
  assert (k = length blocks) as ->.
  { destruct Hk as [(-> & _)|(_ & Hne & _)]; [lia|congruence]. }
  destruct (fork_run h A blocks (Z.of_nat (length blocks)) Hv)
    as (R & h' & Hfork & Hext & Hfresh).
  exists R, h'. split; [congruence|].
  split; [eapply fresh_chain_not_old; eauto|].
  apply fresh_chain_view in Hfresh. rewrite Hfresh. f_equal.
  unfold fork_blocks. destruct (Z.eqb_spec (Z.of_nat (length blocks)) 0);
    [reflexivity|].
  rewrite py_slice_upto_nat. apply firstn_all.
Qed.

Lemma get_root_of_itself_witness :
  chain_view sample_heap 3
  = Some [sample_genesis; sample_block1; sample_block2] /\
  exists R h',
    get_root 3 3 sample_heap = (Return R, h') /\ R <> 3 /\
    chain_view h' R = Some [sample_genesis; sample_block1; sample_block2].
Proof.
  split; [vm_compute; reflexivity|].
  apply (get_root_of_itself sample_heap 3
           [sample_genesis; sample_block1; sample_block2]).
  vm_compute; reflexivity.
Defined.



(** ** The shape of a hash *)

Lemma hex_word_length (n : nat) (x : Z) :
  String.length (SHA256.hex_word n x) = n.
Proof. induction n as [|n IH]; cbn; [reflexivity|]. rewrite IH. reflexivity. Qed.

Lemma hex_digit_is_hex (d : Z) :
  (0 <= d < 16)%Z -> is_hex_digit (SHA256.hex_digit d) = true.
Proof.
  intros Hd.
  assert (d = 0 \/ d = 1 \/ d = 2 \/ d = 3 \/ d = 4 \/ d = 5 \/ d = 6 \/ d = 7 \/
          d = 8 \/ d = 9 \/ d = 10 \/ d = 11 \/ d = 12 \/ d = 13 \/ d = 14 \/
          d = 15)%Z as Hcases by lia.
  repeat destruct Hcases as [->|Hcases]; try subst d; reflexivity.
Qed.

Lemma hex_word_is_hex (n : nat) (x : Z) :
  string_forallb is_hex_digit (SHA256.hex_word n x) = true.
Proof.
  induction n as [|n IH]; cbn [SHA256.hex_word string_forallb]; [reflexivity|].
  rewrite IH, andb_true_r. apply hex_digit_is_hex.
  apply Z.mod_pos_bound. lia.
Qed.

Lemma string_forallb_app (f : ascii -> bool) (s1 s2 : string) :
  string_forallb f (s1 ++ s2)%string
  = string_forallb f s1 && string_forallb f s2.
Proof.
  induction s1 as [|c s1 IH]; cbn; [reflexivity|].
  rewrite IH, andb_assoc. reflexivity.
Qed.

Lemma string_length_app (s1 s2 : string) :
  String.length (s1 ++ s2)%string = String.length s1 + String.length s2.
Proof. induction s1 as [|c s1 IH]; cbn; [reflexivity|]. rewrite IH. reflexivity. Qed.

Lemma concat_hex_words (ws : list Z) :
  String.length (String.concat "" (map (SHA256.hex_word 8) ws)) = 8 * length ws /\
  string_forallb is_hex_digit (String.concat "" (map (SHA256.hex_word 8) ws))
  = true.
Proof.
  induction ws as [|w ws [IHl IHh]]; [split; reflexivity|].
  cbn [map String.concat]. destruct (map (SHA256.hex_word 8) ws) as [|s ss] eqn:E.
  - destruct ws; [|discriminate]. split.
    + rewrite hex_word_length. reflexivity.
    + apply hex_word_is_hex.
  - split.
    + rewrite !string_length_app, hex_word_length, IHl. cbn [length String.length]. lia.
    + rewrite !string_forallb_app, hex_word_is_hex, IHh. reflexivity.
Qed.

Lemma compress_length (hs chunk : list Z) :
  length (SHA256.compress hs chunk) = 8.
Proof. reflexivity. Qed.

Lemma digest_words_length (msg : list Z) :
  length (SHA256.digest_words msg) = 8.
Proof.
  unfold SHA256.digest_words.
  generalize (SHA256.chunks (length (SHA256.pad msg) / 64) (SHA256.pad msg)).
  intros cs. assert (length SHA256.H0 = 8) as H0 by reflexivity.
  revert H0. generalize SHA256.H0. induction cs as [|c cs IH]; intros hs Hhs.
  - exact Hhs.
  - cbn [fold_left]. apply IH. apply compress_length.
Qed.

(** The hash [generate_hash] returns, whatever the block, is a string of
    64 characters, each a digit or a letter from [a] to [f]; the hash the
    constructor stores is one. *)
Theorem generate_hash_is_hex64 (b : BlockView) :
  String.length (generate_hash b) = 64 /\
  string_forallb is_hex_digit (generate_hash b) = true /\
  String.length
    (hash (Block_view_init (index b) (timestamp b) (data b) (previous_hash b))) = 64.
Proof.
  assert (forall bs, String.length (SHA256.hexdigest bs) = 64 /\
                     string_forallb is_hex_digit (SHA256.hexdigest bs) = true)
    as Hhex.
  { intros bs. unfold SHA256.hexdigest.
    destruct (concat_hex_words (SHA256.digest_words (SHA256.of_bytes bs)))
      as [Hl Hh].
    rewrite digest_words_length in Hl. split; [exact Hl|exact Hh]. }
  unfold Block_view_init. cbn [hash]. unfold generate_hash.
  cbn [index timestamp data previous_hash].
  repeat split; apply Hhex.
Qed.

(** ** Growing a fork *)

(** A fork that has a last block can be grown: after [c2 = c1.fork(upto)]
    on a chain that passes [validate], a call of [insert_block] on [c2]
    that passes a dictionary, with a clock reading greater than the
    timestamp of its last block, returns; [c2] is then the kept prefix and
    the new block, linked to the copy of the last kept block, and passes
    [validate]; [c1] has the blocks it had and passes [validate] as
    before. *)
Theorem fork_then_insert_stays_valid (h : heap) (c1 : loc)
    (blocks : list BlockView) (upto : Z) (p : BlockView) (d : loc) (j : json)
    (now : string) :
  chain_view h c1 = Some blocks ->
  validate c1 h = (Return (true, []), h) ->
  last (firstn (fork_length (length blocks) upto) blocks) = Some p ->
  heap_dict h d = Some j ->
  str_lt (timestamp p) now = true ->
  exists c2 h1 b h2,
    fork c1 upto h = (Return c2, h1) /\
    insert_block c2 d now h1 = (Return b, h2) /\
    chain_view h2 c2
    = Some (firstn (fork_length (length blocks) upto) blocks
            ++ [Block_view_init (Z.of_nat (fork_length (length blocks) upto)) now j
                  (hash p)]) /\
    validate c2 h2 = (Return (true, []), h2) /\
    chain_view h2 c1 = Some blocks /\
    validate c1 h2 = (Return (true, []), h2).
Proof.
  intros Hv Hval Hp Hd Hlt.
  destruct (fork_run h c1 blocks upto Hv) as (c2 & h1 & Hrun & Hext & Hfresh).
  pose proof (fresh_chain_view _ _ _ _ Hfresh) as Hv2.
  rewrite fork_blocks_firstn in Hv2.
  set (k := fork_length (length blocks) upto) in *.
  assert (heap_dict h1 d = Some j) as Hd1 by (eapply heap_ext_dict; eauto).
  destruct (insert_block_view h1 c2 (firstn k blocks) p d j now Hv2 Hp Hd1)
    as (h2 & Hins & Hv2' & _).
  assert (length (firstn k blocks) = k) as Hk.
  { rewrite length_firstn. pose proof (fork_length_le (length blocks) upto).
    fold k in H. lia. }
  pose proof Hv2' as Hv2''. rewrite Hk in Hv2''.
  rewrite (validate_run _ _ _ Hv) in Hval. injection Hval as Hflag _.
  assert (violations_spec blocks = []) as Hnil.
  { unfold no_violation in Hflag.
    destruct (violations_spec blocks); [reflexivity|discriminate]. }
  assert (violations_spec (firstn k blocks) = []) as Hnil2.
  { apply no_violation_iff_invariant in Hflag.
    apply (chain_invariant_firstn _ k), no_violation_iff_invariant in Hflag.
    unfold no_violation in Hflag.
    destruct (violations_spec (firstn k blocks)); [reflexivity|discriminate]. }
  assert (chain_view h1 c1 = Some blocks) as Hv1
    by (eapply heap_ext_chain_view; eauto).
  destruct (chain_view_locs _ _ _ Hv1) as (ls1 & Hl1 & _).
  assert (chain_view h2 c1 = Some blocks) as Hv1'.
  { eapply (insert_block_frame h1 h2 c2 c1); eauto.
    intros l Hc2 Hc1.
    destruct Hfresh as (l2 & ls2 & _ & Hl2 & _ & _ & Hcl2 & _).
    destruct (chain_view_inv _ _ _ Hv) as (l1 & ls0 & Hcl1 & Hll1 & _).
    apply heap_list_Some, lookup_lt_Some in Hll1.
    rewrite (heap_ext_chain _ _ _ _ Hext Hcl1) in Hc1. rewrite Hcl2 in Hc2.
    injection Hc1 as <-. injection Hc2 as <-. lia. }
  exists c2, h1, (length h1), h2. split; [exact Hrun|]. split; [exact Hins|].
  split; [exact Hv2''|]. split.
  - rewrite (validate_run _ _ _ Hv2'). unfold no_violation.
    rewrite violations_spec_snoc
      by (intros E; rewrite E in Hp; discriminate).
    rewrite Hnil2, violations_at_new_block by assumption. reflexivity.
  - split; [exact Hv1'|]. rewrite (validate_run _ _ _ Hv1'). unfold no_violation.
    rewrite Hnil. reflexivity.
Qed.

Lemma fork_then_insert_stays_valid_witness :
  chain_view sample_heap_with_dict 3
  = Some [sample_genesis; sample_block1; sample_block2] /\
  validate 3 sample_heap_with_dict = (Return (true, []), sample_heap_with_dict) /\
  last (firstn
          (fork_length (length [sample_genesis; sample_block1; sample_block2])
             (-1))
          [sample_genesis; sample_block1; sample_block2])
  = Some sample_block1 /\
  heap_dict sample_heap_with_dict 8 = Some (JDict [("v", JInt 3)]) /\
  str_lt (timestamp sample_block1) "1700000003.5" = true /\
  exists c2 h1 b h2,
    fork 3 (-1) sample_heap_with_dict = (Return c2, h1) /\
    insert_block c2 8 "1700000003.5" h1 = (Return b, h2) /\
    chain_view h2 c2
    = Some (firstn
              (fork_length
                 (length [sample_genesis; sample_block1; sample_block2]) (-1))
              [sample_genesis; sample_block1; sample_block2]
            ++ [Block_view_init
                  (Z.of_nat
                     (fork_length
                        (length [sample_genesis; sample_block1; sample_block2])
                        (-1)))
                  "1700000003.5" (JDict [("v", JInt 3)])
                  (hash sample_block1)]) /\
    validate c2 h2 = (Return (true, []), h2) /\
    chain_view h2 3 = Some [sample_genesis; sample_block1; sample_block2] /\
    validate 3 h2 = (Return (true, []), h2).
Proof.
  split; [vm_compute; reflexivity|]. split; [vm_compute; reflexivity|].
  split; [reflexivity|]. split; [reflexivity|].
  split; [vm_compute; reflexivity|].
  apply (fork_then_insert_stays_valid sample_heap_with_dict 3
           [sample_genesis; sample_block1; sample_block2] (-1) sample_block1 8
           (JDict [("v", JInt 3)])).
  - vm_compute; reflexivity.
  - vm_compute; reflexivity.
  - reflexivity.
  - reflexivity.
  - vm_compute; reflexivity.
Defined.

(** ** Payload dictionaries *)

Lemma dict_set_run (h : heap) (d : loc) (j j' : json) :
  heap_dict h d = Some j ->
  dict_set d j' h = (Return tt, <[d := ODict j']> h).
Proof.
  intros Hd%heap_dict_Some. unfold dict_set. rewrite Hd. reflexivity.
Qed.

Lemma heap_dict_set_eq (h : heap) (d : loc) (j j' : json) :
  heap_dict h d = Some j -> heap_dict (<[d := ODict j']> h) d = Some j'.
Proof.
  intros Hd%heap_dict_Some. apply heap_dict_Some.
  apply list_lookup_insert_eq. eapply lookup_lt_Some, Hd.
Qed.

Lemma heap_dict_set_ne (h : heap) (d y : loc) (j' : json) :
  y <> d -> heap_dict (<[d := ODict j']> h) y = heap_dict h y.
Proof.
  intros Hne. unfold heap_dict. rewrite list_lookup_insert_ne by congruence.
  reflexivity.
Qed.

Lemma lookup_dict_set (h : heap) (d y : loc) (j j' : json) (o : obj) :
  heap_dict h d = Some j -> h !! y = Some o -> (forall j0, o <> ODict j0) ->
  <[d := ODict j']> h !! y = Some o.
Proof.
  intros Hd%heap_dict_Some Hy Ho.
  rewrite list_lookup_insert_ne; [exact Hy|]. intros ->.
  rewrite Hd in Hy. injection Hy as <-. eapply Ho. reflexivity.
Qed.

Lemma heap_object_dict_set (h : heap) (d y : loc) (j j' : json) (b : Block) :
  heap_dict h d = Some j -> heap_object h y = Some b ->
  heap_object (<[d := ODict j']> h) y = Some b.
Proof.
  intros Hd Hy%heap_object_Some. apply heap_object_Some.
  eapply lookup_dict_set; eauto; discriminate.
Qed.

Lemma heap_block_dict_set (h : heap) (d y : loc) (j j' : json) (v : BlockView)
    (n : nat) :
  heap_dict h d = Some j -> d < n -> heap_block h y = Some v ->
  data_from n h y -> heap_block (<[d := ODict j']> h) y = Some v.
Proof.
  intros Hd Hdn (b & j0 & Hb & Hj & ->)%heap_block_Some (b' & Hb' & Hn).
  apply heap_object_Some in Hb. assert (b' = b) as -> by congruence.
  unfold heap_block. rewrite (heap_object_dict_set _ _ _ _ _ _ Hd Hb).
  rewrite heap_dict_set_ne by lia.
  apply heap_dict_Some in Hj. rewrite Hj. reflexivity.
Qed.

Lemma insert_block_object (h : heap) (c : loc) (bs : list BlockView)
    (p : BlockView) (d : loc) (j : json) (now : string) :
  chain_view h c = Some bs -> last bs = Some p -> heap_dict h d = Some j ->
  exists h',
    insert_block c d now h = (Return (length h), h') /\
    heap_object h' (length h)
    = Some (with_data (Block_view_init (Z.of_nat (length bs)) now j (hash p)) d) /\
    heap_dict h' d = Some j.
Proof.
  intros Hv Hp Hd.
  destruct (chain_view_inv _ _ _ Hv) as (l & ls & Hc & Hl & Hbs).
  destruct (last_mapM_blocks _ _ _ _ Hbs Hp) as (x & Hx & Hxp).
  pose proof (insert_block_run h c l x ls p d j now Hc Hl Hx Hxp Hd) as Hrun.
  rewrite (mapM_length_eq _ _ _ Hbs) in Hrun.
  set (new := Block_view_init (Z.of_nat (length bs)) now j (hash p)) in *.
  set (h1 := h ++ [OBlock (with_data new d)]) in *.
  assert (heap_ext h h1) as Hext by apply heap_ext_alloc.
  assert (heap_list h1 l = Some ls) as Hl1 by (eapply heap_ext_list; eauto).
  eexists. split; [exact Hrun|]. split.
  - rewrite (heap_object_insert_list _ _ _ ls) by exact Hl1.
    apply heap_object_Some, lookup_snoc_at.
  - rewrite (heap_dict_insert_list _ _ _ ls) by exact Hl1.
    eapply heap_ext_dict; eauto.
Qed.

(** A block keeps the dictionary it was given, not a copy of it.  When
    the caller changes the dictionary after [insert_block] has returned,
    the data of the block is what the dictionary then holds, while its
    hash is still the digest over what the dictionary held at the call. *)
Theorem payload_change_reaches_block (h : heap) (c : loc)
    (blocks : list BlockView) (p : BlockView) (d : loc) (j j' : json)
    (now : string) :
  chain_view h c = Some blocks -> last blocks = Some p ->
  heap_dict h d = Some j ->
  exists b h1 h2 new,
    insert_block c d now h = (Return b, h1) /\
    heap_block h1 b = Some new /\ data new = j /\
    hash new = generate_hash new /\
    dict_set d j' h1 = (Return tt, h2) /\
    heap_block h2 b = Some (with_data new j') /\
    hash (with_data new j') = generate_hash new.
Proof.
  intros Hv Hp Hd.
  destruct (insert_block_object h c blocks p d j now Hv Hp Hd)
    as (h1 & Hrun & Hobj & Hd1).
  set (new := Block_view_init (Z.of_nat (length blocks)) now j (hash p)) in *.
  exists (length h), h1, (<[d := ODict j']> h1), new.
  split; [exact Hrun|]. split.
  { rewrite <- (with_data_view new d). apply heap_block_at.
    - apply heap_object_Some, Hobj.
    - apply heap_dict_Some, Hd1. }
  split; [reflexivity|]. split; [reflexivity|].
  split; [eapply dict_set_run, Hd1|]. split; [|reflexivity].
  unfold heap_block.
  rewrite (heap_object_dict_set _ _ _ _ _ _ Hd1 Hobj). cbn [data with_data].
  rewrite (heap_dict_set_eq _ _ _ _ Hd1). reflexivity.
Qed.

Lemma payload_change_reaches_block_witness :
  chain_view sample_heap_with_dict 3
  = Some [sample_genesis; sample_block1; sample_block2] /\
  last [sample_genesis; sample_block1; sample_block2] = Some sample_block2 /\
  heap_dict sample_heap_with_dict 8 = Some (JDict [("v", JInt 3)]) /\
  exists b h1 h2 new,
    insert_block 3 8 "1700000003.0" sample_heap_with_dict = (Return b, h1) /\
    heap_block h1 b = Some new /\ data new = JDict [("v", JInt 3)] /\
    hash new = generate_hash new /\
    dict_set 8 (JDict [("v", JInt 4)]) h1 = (Return tt, h2) /\
    heap_block h2 b = Some (with_data new (JDict [("v", JInt 4)])) /\
    hash (with_data new (JDict [("v", JInt 4)])) = generate_hash new.
Proof.
  split; [vm_compute; reflexivity|]. split; [reflexivity|].
  split; [reflexivity|].
  apply (payload_change_reaches_block sample_heap_with_dict 3
           [sample_genesis; sample_block1; sample_block2] sample_block2 8
           (JDict [("v", JInt 3)]) (JDict [("v", JInt 4)])).
  - vm_compute; reflexivity.
  - reflexivity.
  - reflexivity.
Defined.

Lemma mapM_heap_block_dict_set (h : heap) (d : loc) (j j' : json) (n : nat)
    (ls : list loc) (bs : list BlockView) :
  heap_dict h d = Some j -> d < n ->
  mapM (heap_block h) ls = Some bs -> List.Forall (data_from n h) ls ->
  mapM (heap_block (<[d := ODict j']> h)) ls = Some bs.
Proof.
  intros Hd Hdn H%mapM_Some Hfrom. apply mapM_Some.
  induction H as [|y v ls bs Hy _ IH]; constructor.
  - inversion Hfrom; subst. eapply heap_block_dict_set; eauto.
  - inversion Hfrom; subst. auto.
Qed.

(** [fork] copies the payloads too.  After [c2 = c1.fork(upto)], a change
    to a dictionary that was there before the call -- the payload of a
    block of [c1], say -- leaves the blocks of [c2] as they were. *)
Theorem fork_copies_payloads (h h1 : heap) (c1 c2 : loc)
    (blocks : list BlockView) (upto : Z) (d : loc) (j j' : json) :
  chain_view h c1 = Some blocks ->
  fork c1 upto h = (Return c2, h1) ->
  heap_dict h d = Some j ->
  exists h2,
    dict_set d j' h1 = (Return tt, h2) /\
    chain_view h1 c2
    = Some (firstn (fork_length (length blocks) upto) blocks) /\
    chain_view h2 c2
    = Some (firstn (fork_length (length blocks) upto) blocks).
Proof.
  intros Hv Hfork Hd.
  destruct (fork_run h c1 blocks upto Hv) as (c2' & h1' & Hrun & Hext & Hfresh).
  rewrite Hfork in Hrun. injection Hrun as <- <-.
  pose proof (fresh_chain_view _ _ _ _ Hfresh) as Hv2.
  rewrite fork_blocks_firstn in Hv2, Hfresh.
  destruct Hfresh as (l2 & ls2 & Hc2 & Hl2 & Hnew & Hdata & Hcl2 & Hll2 & Hbs2).
  assert (heap_dict h1 d = Some j) as Hd1 by (eapply heap_ext_dict; eauto).
  assert (d < length h) as Hdn
    by (apply heap_dict_Some in Hd; eapply lookup_lt_Some, Hd).
  exists (<[d := ODict j']> h1). split; [eapply dict_set_run, Hd1|].
  split; [exact Hv2|].
  apply chain_list_Some in Hcl2. apply heap_list_Some in Hll2.
  eapply chain_view_intro.
  - apply chain_list_Some. eapply lookup_dict_set; eauto; discriminate.
  - apply heap_list_Some. eapply lookup_dict_set; eauto; discriminate.
  - eapply mapM_heap_block_dict_set; eauto.
Qed.

Lemma fork_copies_payloads_witness :
  chain_view sample_heap 3
  = Some [sample_genesis; sample_block1; sample_block2] /\
  fork 3 (-1) sample_heap = (Return 15, sample_forked_heap) /\
  heap_dict sample_heap 4 = Some (JDict [("v", JInt 1)]) /\
  exists h2,
    dict_set 4 (JDict [("v", JInt 9)]) sample_forked_heap = (Return tt, h2) /\
    chain_view sample_forked_heap 15
    = Some (firstn
              (fork_length
                 (length [sample_genesis; sample_block1; sample_block2]) (-1))
              [sample_genesis; sample_block1; sample_block2]) /\
    chain_view h2 15
    = Some (firstn
              (fork_length
                 (length [sample_genesis; sample_block1; sample_block2]) (-1))
              [sample_genesis; sample_block1; sample_block2]).
Proof.
  split; [vm_compute; reflexivity|]. split; [vm_compute; reflexivity|].
  split; [vm_compute; reflexivity|].
  apply (fork_copies_payloads sample_heap sample_forked_heap 3 15
           [sample_genesis; sample_block1; sample_block2] (-1) 4
           (JDict [("v", JInt 1)])).
  - vm_compute; reflexivity.
  - vm_compute; reflexivity.
  - vm_compute; reflexivity.
Defined.
